(** * RONAVI generator with rgeres index: a shallow embedding

    This development models [generator_with_index.py]: the local index
    ([rgeres_index.json]) maintained by [update_local_index], the two GitHub
    Contents API helpers [gh_get_file] and [gh_put_file], and the driver
    [main].

    Conventions of the embedding.
    - A Python [str] is a Rocq [string]; a non-ASCII text is its UTF-8 byte
      sequence, so [s.encode("utf-8")] is the identity.
    - A value produced by [json.load] is a [json]; a Python [dict] with string
      keys is an association list in insertion order ([pydict]).  A float is
      kept as its text, with the one thing the program can ask of it: whether
      it is zero.
    - A Python exception is a value of [exn]; code that may raise returns a
      [result].
    - [os.path] is the POSIX flavour ([posixpath]).
    - The disk is part of the environment: what [os.makedirs] does for a
      directory and what [open(path, "w")] does for a path is asked of it,
      and either may raise.  A file that was opened is written whole; the
      intermediate states of the saving of the manifest and its failures
      after the opening are the subject of the step relation [save_step]. *)

From Stdlib Require Import List String Ascii Bool Arith ZArith Lia DecimalString.
Import ListNotations.
Open Scope string_scope.
Open Scope list_scope.

(** String concatenation is written [+++]; [++] is kept for lists. *)
Infix "+++" := String.append (right associativity, at level 60).

(** ** Exceptions and results *)

Inductive exn : Type :=
| RuntimeError (msg : string)
| ValueError (msg : string)
| AttributeError
| KeyError (key : string)
| TypeError
| IndexError
| JSONDecodeError
| FileNotFoundError
| OSError
| RequestException.

Inductive result (A : Type) : Type :=
| Ok (a : A)
| Raise (e : exn).

Arguments Ok {A} a.
Arguments Raise {A} e.

Definition rbind {A B : Type} (r : result A) (k : A -> result B) : result B :=
  match r with
  | Ok a => k a
  | Raise e => Raise e
  end.

Notation "'let?' x ':=' r 'in' k" := (rbind r (fun x => k))
  (at level 10, x name, r at level 100, k at level 200).

(** ** JSON values and Python dicts *)

#[warning="-register-all"]
Inductive json : Type :=
| JNull
| JBool (b : bool)
| JInt (n : Z)
| JFloat (is_zero : bool) (repr : string)
| JStr (s : string)
| JArr (items : list json)
| JObj (members : list (string * json)).

Definition pydict : Type := list (string * json).

Fixpoint dict_get (d : pydict) (k : string) : option json :=
  match d with
  | [] => None
  | (k', v) :: r => if (k' =? k)%string then Some v else dict_get r k
  end.

(** [d[k] = v]: an existing key keeps its position, a new key goes last. *)
Fixpoint dict_set (d : pydict) (k : string) (v : json) : pydict :=
  match d with
  | [] => [(k, v)]
  | (k', v') :: r =>
      if (k' =? k)%string then (k, v) :: r else (k', v') :: dict_set r k v
  end.

(** [d.update(other)]: the items of [other], in order. *)
Definition dict_update (d other : pydict) : pydict :=
  fold_left (fun acc kv => dict_set acc (fst kv) (snd kv)) other d.

Definition dict_keys (d : pydict) : list string := map fst d.

(** Truth value of a JSON value, as Python's [if v:] has it. *)
Definition truthy (v : json) : bool :=
  match v with
  | JNull => false
  | JBool b => b
  | JInt n => negb (Z.eqb n 0)
  | JFloat is_zero _ => negb is_zero
  | JStr s => negb (s =? "")%string
  | JArr items => match items with [] => false | _ => true end
  | JObj members => match members with [] => false | _ => true end
  end.

(** [v == s] for a string [s]: only an equal string is equal to [s]. *)
Definition py_eq_str (v : json) (s : string) : bool :=
  match v with
  | JStr t => (t =? s)%string
  | _ => false
  end.

(** [e.get(k)]: [None] for a missing key; only a dict has [get]. *)
Definition py_get (e : json) (k : string) : result json :=
  match e with
  | JObj d => Ok (match dict_get d k with Some v => v | None => JNull end)
  | _ => Raise AttributeError
  end.

(** [v[k]] for a string key [k]. *)
Definition py_subscript (v : json) (k : string) : result json :=
  match v with
  | JObj d => match dict_get d k with
              | Some x => Ok x
              | None => Raise (KeyError k)
              end
  | _ => Raise TypeError
  end.


(** ** Strings *)

Definition sep : ascii := "/"%char.

(** [s.startswith(p)] *)
Fixpoint startswith (s p : string) {struct p} : bool :=
  match p with
  | EmptyString => true
  | String a p' =>
      match s with
      | EmptyString => false
      | String b s' => Ascii.eqb b a && startswith s' p'
      end
  end.

Fixpoint endswith_sep (s : string) : bool :=
  match s with
  | EmptyString => false
  | String c EmptyString => Ascii.eqb c sep
  | String _ r => endswith_sep r
  end.

(** [s.split("/")] *)
Fixpoint split_sep (s : string) : list string :=
  match s with
  | EmptyString => [EmptyString]
  | String c r =>
      if Ascii.eqb c sep then EmptyString :: split_sep r
      else match split_sep r with
           | [] => [String c EmptyString]
           | h :: t => String c h :: t
           end
  end.

(** ["/".join(l)] *)
Definition join_sep (l : list string) : string := String.concat "/" l.

(** [s.split("/", 1)] *)
Fixpoint split_once (s : string) : list string :=
  match s with
  | EmptyString => [EmptyString]
  | String c r =>
      if Ascii.eqb c sep then [EmptyString; r]
      else match split_once r with
           | h :: t => String c h :: t
           | [] => [String c EmptyString]
           end
  end.

Fixpoint has_sep (s : string) : bool :=
  match s with
  | EmptyString => false
  | String c r => Ascii.eqb c sep || has_sep r
  end.

Fixpoint repeat_str (s : string) (n : nat) : string :=
  match n with
  | O => ""
  | S k => s +++ repeat_str s k
  end.

Definition nonempty (s : string) : bool := negb (s =? "")%string.

(** ** [posixpath] *)

Module posixpath.

Definition isabs (p : string) : bool := startswith p "/".

(** One round of the loop of [join]. *)
Definition join2 (path b : string) : string :=
  if startswith b "/" then b
  else if (path =? "")%string || endswith_sep path then path +++ b
  else path +++ "/" +++ b.

Definition join (a : string) (p : list string) : string :=
  fold_left join2 p a.

Definition is_nil {A : Type} (l : list A) : bool :=
  match l with [] => true | _ => false end.

(** The body of the loop of [normpath]. *)
Definition normpath_step (initial_slashes : nat) (new_comps : list string)
    (comp : string) : list string :=
  if ((comp =? "") || (comp =? "."))%string then new_comps
  else if negb (comp =? "..")%string
          || (Nat.eqb initial_slashes 0 && is_nil new_comps)
          || (negb (is_nil new_comps) && (last new_comps "" =? "..")%string)
       then new_comps ++ [comp]
       else removelast new_comps.

Definition initial_slashes_of (path : string) : nat :=
  if startswith path "/" then
    if startswith path "//" && negb (startswith path "///") then 2 else 1
  else 0.

Definition norm_comps (path : string) : list string :=
  fold_left (normpath_step (initial_slashes_of path)) (split_sep path) [].

Definition normpath (path : string) : string :=
  if (path =? "")%string then "."
  else
    let p := repeat_str "/" (initial_slashes_of path)
             +++ join_sep (norm_comps path) in
    if (p =? "")%string then "." else p.

Definition abspath (cwd path : string) : string :=
  if isabs path then normpath path else normpath (join cwd [path]).

(** Python's [a < b] on lists of strings. *)
Fixpoint list_ltb (a b : list string) : bool :=
  match a, b with
  | [], [] => false
  | [], _ :: _ => true
  | _ :: _, [] => false
  | x :: a', y :: b' =>
      if (x =? y)%string then list_ltb a' b' else String.ltb x y
  end.

(** The loop of [commonprefix]: [i] is the index reached, [s1] what is left
    of the smaller list. *)
Fixpoint commonprefix_loop (s1 s2 : list string) (i : nat)
    (whole : list string) : result (list string) :=
  match s1 with
  | [] => Ok whole
  | c :: s1' =>
      match s2 with
      | [] => Raise IndexError
      | d :: s2' =>
          if (c =? d)%string then commonprefix_loop s1' s2' (S i) whole
          else Ok (firstn i whole)
      end
  end.

(** [commonprefix([a, b])] *)
Definition commonprefix (a b : list string) : result (list string) :=
  let s1 := if list_ltb b a then b else a in
  let s2 := if list_ltb a b then b else a in
  commonprefix_loop s1 s2 0 s1.

Definition relpath (cwd path start : string) : result string :=
  if (path =? "")%string then Raise (ValueError "no path specified")
  else
    let start_list := filter nonempty (split_sep (abspath cwd start)) in
    let path_list := filter nonempty (split_sep (abspath cwd path)) in
    let? pre := commonprefix start_list path_list in
    let i := List.length pre in
    let rel_list := repeat ".." (List.length start_list - i) ++ skipn i path_list in
    match rel_list with
    | [] => Ok "."
    | a :: p => Ok (join a p)
    end.

End posixpath.

(** ** [datetime.utcnow().isoformat()] *)

Record datetime : Type := mk_datetime {
  year : nat; month : nat; day : nat;
  hour : nat; minute : nat; second : nat;
  microsecond : nat
}.

Definition digit_char (n : nat) : ascii := ascii_of_nat (48 + n mod 10).

(** The [w] low decimal digits of [n], most significant first: what
    ["%0wd" % n] prints for [n < 10^w], which holds of every field of a
    [datetime] at its width. *)
Fixpoint fixed_digits (w n : nat) : string :=
  match w with
  | O => ""
  | S w' => String (digit_char (n / 10 ^ w')) (fixed_digits w' n)
  end.

Definition format_time (dt : datetime) : string :=
  let hms := fixed_digits 2 (hour dt) +++ ":" +++ fixed_digits 2 (minute dt)
             +++ ":" +++ fixed_digits 2 (second dt) in
  if Nat.eqb (microsecond dt) 0 then hms
  else hms +++ "." +++ fixed_digits 6 (microsecond dt).

(** [isoformat] of a naive [datetime] (no UTC offset is printed). *)
Definition isoformat (dt : datetime) : string :=
  fixed_digits 4 (year dt) +++ "-" +++ fixed_digits 2 (month dt) +++ "-"
  +++ fixed_digits 2 (day dt) +++ "T" +++ format_time dt.








(** ** The manifest file and [update_local_index] *)

Definition INDEX_FILENAME : string := "rgeres_index.json".

(** The file at [os.path.join(outdir, INDEX_FILENAME)]: absent, or its bytes
    together with what [json.load] does on them ([None]: it raises). *)
Inductive manifest_file : Type :=
| Missing
| File (raw : string) (loaded : option json).

(** Lines 163-172: the entries the update starts from. *)
Definition load_entries (m : manifest_file) : list json :=
  match m with
  | Missing => []
  | File _ None => []
  | File _ (Some (JArr items)) => items
  | File _ (Some _) => []
  end.

(** The dict handed to [e.update]. *)
Definition update_fields (filename source now : string) (blob_sha : json)
    : pydict :=
  [("name", JStr filename); ("source", JStr source); ("timestamp", JStr now);
   ("blob_sha", blob_sha)].

(** The dict appended for a path that is not in the index. *)
Definition new_entry (filename rel_path source now : string)
    (blob_sha : json) : json :=
  JObj [("name", JStr filename); ("path", JStr rel_path);
        ("source", JStr source); ("timestamp", JStr now);
        ("blob_sha", blob_sha)].

Definition py_update (e : json) (fields : pydict) : json :=
  match e with
  | JObj d => JObj (dict_update d fields)
  | _ => e
  end.

(** Lines 178-183: the [for] loop with its [break]; the flag is [updated]. *)
Fixpoint update_loop (entries : list json) (rel_path : string)
    (fields : pydict) : result (list json * bool) :=
  match entries with
  | [] => Ok ([], false)
  | e :: rest =>
      let? p := py_get e "path" in
      if py_eq_str p rel_path then Ok (py_update e fields :: rest, true)
      else
        let? r := update_loop rest rel_path fields in
        Ok (e :: fst r, snd r)
  end.

(** Lines 177-192: update the entry of [rel_path], else append one. *)
Definition upsert (entries : list json) (rel_path filename source now : string)
    (blob_sha : json) : result (list json) :=
  let? r := update_loop entries rel_path
              (update_fields filename source now blob_sha) in
  if snd r then Ok (fst r)
  else Ok (fst r ++ [new_entry filename rel_path source now blob_sha]).

Section LocalIndex.

(** [json.dumps(v, indent=2)], the text [json.dump] writes. *)
Variable json_dumps : json -> string.
(** [os.getcwd()] *)
Variable getcwd : string.
(** What [open(path, "w", encoding="utf-8")] does: nothing, or the exception
    it raises, as for a directory that does not exist (the function never
    creates [outdir]) or cannot be written. *)
Variable open_w : string -> result unit.

(** [utcnow] is the value [datetime.utcnow()] returns in this call; the
    result is the returned value (or the exception) and the manifest file
    afterwards.  An [open] that raises leaves the file as it was. *)
Definition update_local_index (outdir filename source : string)
    (blob_sha : json) (utcnow : datetime) (m : manifest_file)
    : result string * manifest_file :=
  let idx_path := posixpath.join outdir [INDEX_FILENAME] in
  let entries := load_entries m in
  match posixpath.relpath getcwd (posixpath.join outdir [filename]) outdir with
  | Raise e => (Raise e, m)
  | Ok rel_path =>
      let now := isoformat utcnow +++ "Z" in
      match upsert entries rel_path filename source now blob_sha with
      | Raise e => (Raise e, m)
      | Ok entries' =>
          match open_w idx_path with
          | Raise e => (Raise e, m)
          | Ok _ =>
              (Ok idx_path,
               File (json_dumps (JArr entries')) (Some (JArr entries')))
          end
      end
  end.

End LocalIndex.

(** ** HTTP and the GitHub helpers *)

Definition GITHUB_API : string := "https://api.github.com".

Definition headers : Type := list (string * string).

Inductive request : Type :=
| GET (url : string) (params : list (string * string)) (hdrs : headers)
| PUT (url : string) (hdrs : headers) (payload : pydict).

(** What [requests] hands back: [json_body] is the value of [resp.json()],
    [None] when that call raises. *)
Record response : Type := mk_response {
  status_code : nat;
  text : string;
  json_body : option json
}.

(** A call that leaves the process: a request to the Contents API or a chat
    completion asked of the text generator. *)
Inductive net_event : Type :=
| EvRequest (r : request)
| EvChat (model system_prompt user_prompt : string).

Definition is_request (ev : net_event) : bool :=
  match ev with
  | EvRequest _ => true
  | EvChat _ _ _ => false
  end.

(** [base64.b64encode(b).decode("utf-8")] *)
Definition b64_alphabet : string :=
  "ABCDEFGHIJKLMNOPQRSTUVWXYZabcdefghijklmnopqrstuvwxyz0123456789+/".

Definition b64_char (n : nat) : ascii :=
  match String.get n b64_alphabet with
  | Some c => c
  | None => "="%char
  end.

Fixpoint b64encode (s : string) : string :=
  match s with
  | EmptyString => ""
  | String a EmptyString =>
      let x := nat_of_ascii a in
      String (b64_char (x / 4)) (String (b64_char (x mod 4 * 16)) "==")
  | String a (String b EmptyString) =>
      let x := nat_of_ascii a in
      let y := nat_of_ascii b in
      String (b64_char (x / 4))
        (String (b64_char (x mod 4 * 16 + y / 16))
           (String (b64_char (y mod 16 * 4)) "="))
  | String a (String b (String c r)) =>
      let x := nat_of_ascii a in
      let y := nat_of_ascii b in
      let z := nat_of_ascii c in
      String (b64_char (x / 4))
        (String (b64_char (x mod 4 * 16 + y / 16))
           (String (b64_char (y mod 16 * 4 + z / 64))
              (String (b64_char (z mod 64)) (b64encode r))))
  end.

(** Reading base64 back, as the receiver of a request does. *)

(** The value of a character of the base64 alphabet. *)
Definition b64_value (c : ascii) : option nat :=
  let n := nat_of_ascii c in
  if Nat.leb 65 n && Nat.leb n 90 then Some (n - 65)
  else if Nat.leb 97 n && Nat.leb n 122 then Some (n - 71)
  else if Nat.leb 48 n && Nat.leb n 57 then Some (n + 4)
  else if Nat.eqb n 43 then Some 62
  else if Nat.eqb n 47 then Some 63
  else None.

Definition is_pad (c : ascii) : bool := Ascii.eqb c "="%char.

(** The bytes a base64 text stands for, as a reader of the request decodes
    them; [None] for a text that is not base64. *)
Fixpoint b64decode (s : string) : option string :=
  match s with
  | EmptyString => Some ""
  | String c1 (String c2 (String c3 (String c4 r))) =>
      match b64_value c1, b64_value c2 with
      | Some v1, Some v2 =>
          let a := ascii_of_nat (v1 * 4 + v2 / 16) in
          if is_pad c3 then
            if is_pad c4 && (r =? "")%string then Some (String a "") else None
          else
            match b64_value c3 with
            | Some v3 =>
                let b := ascii_of_nat (v2 mod 16 * 16 + v3 / 4) in
                if is_pad c4 then
                  if (r =? "")%string then Some (String a (String b ""))
                  else None
                else
                  match b64_value c4, b64decode r with
                  | Some v4, Some rest =>
                      Some (String a
                              (String b
                                 (String (ascii_of_nat (v3 mod 4 * 64 + v4))
                                    rest)))
                  | _, _ => None
                  end
            | None => None
            end
      | _, _ => None
      end
  | _ => None
  end.

Definition str_of_nat (n : nat) : string :=
  DecimalString.NilZero.string_of_uint (Nat.to_uint n).

Definition _gh_headers (token : string) : headers :=
  [("Authorization", "token " +++ token);
   ("Accept", "application/vnd.github.v3+json")].

Definition contents_url (owner name path : string) : string :=
  GITHUB_API +++ "/repos/" +++ owner +++ "/" +++ name +++ "/contents/" +++ path.

Definition requests_missing : exn :=
  RuntimeError "requests package not installed. Install with: pip install requests".

Definition unpack_error : exn :=
  ValueError "not enough values to unpack (expected 2, got 1)".

(** The request [gh_put_file] sends carries [sha] only when [sha] is truthy. *)
Definition put_payload (content_bytes branch message : string) (sha : json)
    : pydict :=
  let payload := [("message", JStr message);
                  ("content", JStr (b64encode content_bytes));
                  ("branch", JStr branch)] in
  if truthy sha then dict_set payload "sha" sha else payload.

Definition resp_json (resp : response) : result json :=
  match json_body resp with
  | Some v => Ok v
  | None => Raise JSONDecodeError
  end.

(** ** The world the program runs in *)

(** A line printed by [main]. *)
Inductive out_line : Type :=
| OutSaved (local_path : string)
| OutUpdatedIndex (idx_path : string)
| OutPushed (fname repo branch : string) (blob_sha : json)
| OutPushFailed (e : exn)
| OutPushedIndex (repo branch : string) (sha : json)
| OutIndexPushFailed (e : exn)
| OutDone.

(** [w_files]: the artifact files written, newest first; [w_manifest]: the
    manifest file of the output directory; [w_net]: the calls that left the
    process, oldest first; [w_ticks]: how many times [update_local_index]
    was entered; [w_stdout]: the lines printed, oldest first. *)
Record world : Type := mk_world {
  w_files : list (string * string);
  w_manifest : manifest_file;
  w_net : list net_event;
  w_ticks : nat;
  w_stdout : list out_line
}.

Definition read_file (w : world) (path : string) : option string :=
  match find (fun f => (fst f =? path)%string) (w_files w) with
  | Some f => Some (snd f)
  | None => None
  end.

(** Code with effects: a result and the world it leaves.  An exception
    keeps the effects that came before it. *)
Definition M (A : Type) : Type := world -> result A * world.

Definition ret {A : Type} (a : A) : M A := fun w => (Ok a, w).

Definition raise {A : Type} (e : exn) : M A := fun w => (Raise e, w).

Definition bind {A B : Type} (m : M A) (k : A -> M B) : M B :=
  fun w =>
    match m w with
    | (Ok a, w') => k a w'
    | (Raise e, w') => (Raise e, w')
    end.

Definition lift {A : Type} (r : result A) : M A := fun w => (r, w).

(** [try: body except Exception as e: handler(e)] *)
Definition try_except {A : Type} (body : M A) (handler : exn -> M A) : M A :=
  fun w =>
    match body w with
    | (Ok a, w') => (Ok a, w')
    | (Raise e, w') => handler e w'
    end.

Notation "x <- m ;; k" := (bind m (fun x => k))
  (at level 100, m at next level, right associativity).

Notation "m ;;; k" := (bind m (fun _ => k))
  (at level 100, right associativity).

Definition print (l : out_line) : M unit :=
  fun w => (Ok tt, mk_world (w_files w) (w_manifest w) (w_net w) (w_ticks w)
                            (w_stdout w ++ [l])).

Fixpoint for_each {A : Type} (l : list A) (body : A -> M unit) : M unit :=
  match l with
  | [] => ret tt
  | a :: rest => body a ;;; for_each rest body
  end.

(** The command line, after [argparse]. *)
Inductive gen_mode : Type := ModeLocal | ModeAi.

Inductive gen_type : Type := TypeServer | TypeLocal | TypeBoth.

Record arguments : Type := mk_arguments {
  arg_mode : gen_mode;
  arg_type : gen_type;
  arg_outdir : string;
  arg_repo : option string;
  arg_branch : string;
  arg_github_token : option string;
  arg_commit_message : string
}.

Definition mode_str (m : gen_mode) : string :=
  match m with
  | ModeLocal => "local"
  | ModeAi => "ai"
  end.

(** Truth value of an optional command-line string. *)
Definition given (o : option string) : bool :=
  match o with
  | Some s => nonempty s
  | None => false
  end.

Definition str_of (o : option string) : string :=
  match o with
  | Some s => s
  | None => ""
  end.

Definition sync_requested (args : arguments) : bool :=
  given (arg_repo args) && given (arg_github_token args).

(** What the program finds around it. *)
Record environment : Type := mk_environment {
  (** [json.dumps(v, indent=2)], the text [json.dump] writes. *)
  json_dumps : json -> string;
  (** [os.getcwd()] *)
  getcwd : string;
  (** The disk: what [os.makedirs(d, exist_ok=True)] does for a directory
      name [d] that is not empty, and what [open(p, "w", encoding="utf-8")]
      does for a path [p]; each does nothing or raises ([FileNotFoundError]
      for a directory that is missing, another [OSError] for one that cannot
      be made or written). *)
  makedirs : string -> result unit;
  open_w : string -> result unit;
  (** Whether the guarded imports found [requests] and [openai]. *)
  requests_installed : bool;
  openai_installed : bool;
  (** [os.environ.get("OPENAI_API_KEY")] *)
  OPENAI_API_KEY : option string;
  (** The remote store: its answer to a request, given the calls made so
      far, or the exception of a failed transport. *)
  server : list net_event -> request -> result response;
  (** The text generator: [resp.choices[0].message.content] for a prompt, or
      the exception the call ends in. *)
  chat : list net_event -> string -> result string;
  (** [clock k] is what [datetime.utcnow()] returns in the [k]-th call of
      [update_local_index]. *)
  clock : nat -> datetime;
  (** The constant texts: the two values of [LOCAL_TEMPLATES] and
      [AI_SYSTEM_PROMPT]. *)
  server_lua : string;
  local_lua : string;
  AI_SYSTEM_PROMPT : string
}.

Section Program.

Variable E : environment.

Definition LOCAL_TEMPLATES : list (string * string) :=
  [("server", server_lua E); ("local", local_lua E)].

(** [requests.get] / [requests.put] *)
Definition send (r : request) : M response :=
  fun w => (server E (w_net w) r,
            mk_world (w_files w) (w_manifest w) (w_net w ++ [EvRequest r])
                     (w_ticks w) (w_stdout w)).

(** [None] is [JNull]. *)
Definition gh_get_file (repo path ref token : string) : M json :=
  if negb (requests_installed E) then raise requests_missing
  else
    match split_once repo with
    | [owner; name] =>
        let url := contents_url owner name path in
        resp <- send (GET url [("ref", ref)] (_gh_headers token)) ;;
        if Nat.eqb (status_code resp) 200 then lift (resp_json resp)
        else ret JNull
    | _ => raise unpack_error
    end.

Definition gh_put_file (repo path content_bytes branch token message : string)
    (sha : json) : M json :=
  if negb (requests_installed E) then raise requests_missing
  else
    match split_once repo with
    | [owner; name] =>
        let url := contents_url owner name path in
        let payload := put_payload content_bytes branch message sha in
        resp <- send (PUT url (_gh_headers token) payload) ;;
        if Nat.eqb (status_code resp) 200 || Nat.eqb (status_code resp) 201
        then lift (resp_json resp)
        else raise (RuntimeError ("GitHub API error "
                                  +++ str_of_nat (status_code resp) +++ ": "
                                  +++ text resp))
    | _ => raise unpack_error
    end.

(** [os.makedirs(outdir, exist_ok=True)]: the empty name is no directory,
    [mkdir] answers it with [ENOENT]. *)
Definition os_makedirs (outdir : string) : result unit :=
  if (outdir =? "")%string then Raise FileNotFoundError else makedirs E outdir.

(** [f.write(contents)] on the file just opened. *)
Definition write_file (path contents : string) : M unit :=
  fun w => (Ok tt, mk_world ((path, contents) :: w_files w) (w_manifest w)
                            (w_net w) (w_ticks w) (w_stdout w)).

Definition save_file (contents outdir filename : string) : M string :=
  lift (os_makedirs outdir) ;;;
  let path := posixpath.join outdir [filename] in
  lift (open_w E path) ;;;
  write_file path contents ;;;
  ret path.

(** [update_local_index] run in the world. *)
Definition update_index (outdir filename source : string) (blob_sha : json)
    : M string :=
  fun w =>
    let '(r, m) := update_local_index (json_dumps E) (getcwd E) (open_w E)
                     outdir filename source blob_sha (clock E (w_ticks w))
                     (w_manifest w) in
    (r, mk_world (w_files w) m (w_net w) (S (w_ticks w)) (w_stdout w)).

Definition generate_local_script (script_type : string) : result string :=
  match find (fun kv => (fst kv =? script_type)%string) LOCAL_TEMPLATES with
  | Some kv => Ok (snd kv)
  | None => Raise (ValueError ("unknown type: " +++ script_type))
  end.

(** Lines 272-282: the text asked of the generator. *)
Definition generate_ai_script (stype : string) : M string :=
  if negb (openai_installed E) then
    raise (RuntimeError
             "openai package not installed. Install with: pip install openai")
  else if negb (given (OPENAI_API_KEY E)) then
    raise (RuntimeError "OPENAI_API_KEY not set for AI mode.")
  else
    let prompt := "Write a " +++ stype
                  +++ " Lua script for RONAVI STUDIO. Return only Lua code." in
    fun w => (chat E (w_net w) prompt,
              mk_world (w_files w) (w_manifest w)
                       (w_net w ++ [EvChat "gpt-4" (AI_SYSTEM_PROMPT E) prompt])
                       (w_ticks w) (w_stdout w)).

Definition to_create (args : arguments) : list (string * string) :=
  (match arg_type args with
   | TypeServer | TypeBoth => [("server", "ronavi_server.lua")]
   | TypeLocal => []
   end)
  ++ (match arg_type args with
      | TypeLocal | TypeBoth => [("local", "ronavi_local.lua")]
      | TypeServer => []
      end).

(** Lines 295-301: the body of the [try]. *)
Definition push_artifact (args : arguments) (fname contents : string)
    : M unit :=
  let repo := str_of (arg_repo args) in
  let token := str_of (arg_github_token args) in
  existing <- gh_get_file repo fname (arg_branch args) token ;;
  sha <- lift (if truthy existing then py_subscript existing "sha"
               else Ok JNull) ;;
  result <- gh_put_file repo fname contents (arg_branch args) token
              (arg_commit_message args) sha ;;
  blob_sha <- lift (let? c := py_subscript result "content" in
                    py_subscript c "sha") ;;
  print (OutPushed fname repo (arg_branch args) blob_sha) ;;;
  update_index (arg_outdir args) fname (mode_str (arg_mode args)) blob_sha ;;;
  ret tt.

(** Lines 292-303: the push, when asked for, with its handler. *)
Definition sync_artifact (args : arguments) (fname contents : string)
    : M unit :=
  if sync_requested args then
    try_except (push_artifact args fname contents)
               (fun e => print (OutPushFailed e))
  else ret tt.

(** Lines 269-282: the text of the artifact. *)
Definition produce (args : arguments) (stype : string) : M string :=
  match arg_mode args with
  | ModeLocal => lift (generate_local_script stype)
  | ModeAi => generate_ai_script stype
  end.

(** Lines 269-289: produce the text, write it, record it. *)
Definition local_step (args : arguments) (stype fname : string) : M string :=
  contents <- produce args stype ;;
  local_path <- save_file contents (arg_outdir args) fname ;;
  print (OutSaved local_path) ;;;
  idx_path <- update_index (arg_outdir args) fname (mode_str (arg_mode args))
                JNull ;;
  print (OutUpdatedIndex idx_path) ;;;
  ret contents.

(** The body of the [for] loop of [main]. *)
Definition process_artifact (args : arguments) (a : string * string)
    : M unit :=
  contents <- local_step args (fst a) (snd a) ;;
  sync_artifact args (snd a) contents.

(** Lines 311-314: the body of the last [try]. *)
Definition push_index (args : arguments) (idx_bytes : string) : M unit :=
  let repo := str_of (arg_repo args) in
  let token := str_of (arg_github_token args) in
  existing_idx <- gh_get_file repo INDEX_FILENAME (arg_branch args) token ;;
  idx_sha <- lift (if truthy existing_idx
                   then py_subscript existing_idx "sha" else Ok JNull) ;;
  res <- gh_put_file repo INDEX_FILENAME idx_bytes (arg_branch args) token
           (arg_commit_message args +++ " (update rgeres index)") idx_sha ;;
  sha <- lift (let? c := py_subscript res "content" in
               py_subscript c "sha") ;;
  print (OutPushedIndex repo (arg_branch args) sha).

(** Lines 306-316 *)
Definition sync_index (args : arguments) : M unit :=
  fun w =>
    match w_manifest w with
    | File idx_bytes _ =>
        if sync_requested args then
          try_except (push_index args idx_bytes)
                     (fun e => print (OutIndexPushFailed e)) w
        else ret tt w
    | Missing => ret tt w
    end.

Definition main (args : arguments) : M unit :=
  for_each (to_create args) (process_artifact args) ;;;
  sync_index args ;;;
  print OutDone.

End Program.

(** ** Saving the manifest, step by step *)

(** Lines 194-195: [open(idx_path, "w")] creates the file or empties it,
    [json.dump] writes the text through the file object, and leaving the
    [with] block flushes what is left and closes the file.  A text that is a
    proper prefix of the serialised array is not a JSON document, so
    [json.load] raises on it. *)
Inductive save_pc : Type :=
| BeforeOpen
| Writing
| Closed
| Failed.

Definition save_state : Type := (save_pc * manifest_file)%type.

Definition pc_of (s : save_state) : save_pc := fst s.

Definition disk_of (s : save_state) : manifest_file := snd s.

Section Save.

(** The text [json.dump] writes and the entries it stands for. *)
Variable text : string.
Variable entries : list json.

Inductive save_step : save_state -> save_state -> Prop :=
| step_open (d : manifest_file) :
    save_step (BeforeOpen, d) (Writing, File "" None)
| step_open_fails (d : manifest_file) :
    save_step (BeforeOpen, d) (Failed, d)
| step_flush (d : manifest_file) (k : nat) :
    k < String.length text ->
    save_step (Writing, d) (Writing, File (substring 0 k text) None)
| step_write_fails (d : manifest_file) :
    save_step (Writing, d) (Failed, d)
| step_close (d : manifest_file) :
    save_step (Writing, d) (Closed, File text (Some (JArr entries))).

(** The states a save passes through, from the manifest [old]. *)
Inductive save_reaches (old : manifest_file) : save_state -> Prop :=
| reaches_start : save_reaches old (BeforeOpen, old)
| reaches_step (s s' : save_state) :
    save_reaches old s -> save_step s s' -> save_reaches old s'.

(** What a reader finds at a state: the entries [load] gives it. *)
Definition reader_sees (s : save_state) : list json :=
  load_entries (disk_of s).

(** The manifest is either the old one or the new one. *)
Definition all_or_nothing (old : manifest_file) (s : save_state) : Prop :=
  disk_of s = old \/ disk_of s = File text (Some (JArr entries)).

Definition truncated (d : manifest_file) : Prop :=
  exists prefix, d = File prefix None.

End Save.

(** ** Predicates of the statements and data of the examples *)

Definition is_obj (e : json) : bool :=
  match e with
  | JObj _ => true
  | _ => false
  end.

(** The test of the loop, [e.get("path") == p], on an entry that has [get]. *)
Definition path_is (p : string) (e : json) : bool :=
  match py_get e "path" with
  | Ok v => py_eq_str v p
  | Raise _ => false
  end.

(** How many entries of the index have path [p]. *)
Definition count_path (idx : list json) (p : string) : nat :=
  List.length (filter (path_is p) idx).

Definition all_objects (idx : list json) : Prop :=
  Forall (fun e => is_obj e = true) idx.

(** The indexes the program builds: from no entry, by [upsert]. *)
Inductive reachable : list json -> Prop :=
| reachable_empty : reachable []
| reachable_upsert (idx idx' : list json) (p n s t : string) (h : json) :
    reachable idx -> upsert idx p n s t h = Ok idx' -> reachable idx'.

Definition entry_shaped (e : json) : Prop :=
  exists n p s t h, e = new_entry n p s t h.

Definition sample_index : list json :=
  [new_entry "a.lua" "a.lua" "local" "2024-03-09T07:05:00Z" JNull].

(** An index of two files, the second pushed. *)
Definition two_index : list json :=
  [new_entry "a.lua" "a.lua" "local" "2024-03-09T07:05:00Z" JNull;
   new_entry "b.lua" "b.lua" "local" "2024-03-09T07:05:01Z" (JStr "h1")].

(** Components as [normpath] keeps them: not empty, without separator. *)
Definition clean (l : list string) : Prop :=
  Forall (fun c => nonempty c = true /\ has_sep c = false) l.

(** A file name proper: not empty, no separator, neither [.] nor [..]. *)
Definition is_bare_name (f : string) : bool :=
  nonempty f && negb (has_sep f) && negb (f =? ".")%string
  && negb (f =? "..")%string.

(** The entry a call writes: the first one of the path in what it saves. *)
Definition written_entry (p : string) (entries : list json) : option json :=
  find (path_is p) entries.

(** In the closed examples the text of the manifest is immaterial; it is
    taken to be empty. *)
Definition blank_dumps (j : json) : string := "".

Definition sample_time : datetime := mk_datetime 2024 3 9 7 5 0 0.


Definition empty_world : world := mk_world [] Missing [] 0 [].

(** A store that gives every request the same answer. *)
Definition answers (code : nat) (body : option json)
    : list net_event -> request -> result response :=
  fun _ _ => Ok (mk_response code "" body).

(** A disk that makes every directory and opens every path. *)
Definition disk_ok : string -> result unit := fun _ => Ok tt.

(** A disk on which no directory is found. *)
Definition disk_missing : string -> result unit :=
  fun _ => Raise FileNotFoundError.

(** An environment for the closed examples: [requests] installed, no
    [openai], the working directory [/home/u], a disk that obeys, a stopped
    clock. *)
Definition sample_env (srv : list net_event -> request -> result response)
    : environment :=
  mk_environment blank_dumps "/home/u" disk_ok disk_ok true false None srv
    (fun _ _ => Raise RequestException) (fun _ => sample_time)
    "-- server" "-- local" "".

Definition created_body : json := JObj [("content", JObj [("sha", JStr "h2")])].

Definition sample_manifest : manifest_file :=
  File "[...]" (Some (JArr sample_index)).

(** Code that leaves the artifact files and the manifest as they are. *)
Definition keeps_store {A : Type} (m : M A) : Prop :=
  forall w, w_files (snd (m w)) = w_files w
            /\ w_manifest (snd (m w)) = w_manifest w.

(** Code whose failures leave the artifact files and the manifest as they
    were when it started. *)
Definition failure_keeps_store {A : Type} (m : M A) : Prop :=
  forall w e w', m w = (Raise e, w') ->
                 w_files w' = w_files w /\ w_manifest w' = w_manifest w.

(** The artifact is on disk and the manifest has its entry, the remote hash
    null. *)
Definition recorded (outdir fname : string) (w : world) : Prop :=
  (exists contents,
     read_file w (posixpath.join outdir [fname]) = Some contents)
  /\ exists e,
       written_entry fname (load_entries (w_manifest w)) = Some e
       /\ py_subscript e "path" = Ok (JStr fname)
       /\ py_subscript e "blob_sha" = Ok JNull.

(** A run in which the store refuses every write: it knows each path under
    the hash [h0] and answers 409 to a PUT.  The manifest holds, from an
    earlier run, the entry of the server script with the hash [h1]. *)
Definition conflict_server : list net_event -> request -> result response :=
  fun _ r =>
    match r with
    | GET _ _ _ => Ok (mk_response 200 "" (Some (JObj [("sha", JStr "h0")])))
    | PUT _ _ _ => Ok (mk_response 409 "conflict" None)
    end.

Definition conflict_env : environment := sample_env conflict_server.

Definition sync_args : arguments :=
  mk_arguments ModeLocal TypeBoth "out" (Some "octo/repo") "main" (Some "tok")
    "Add RONAVI scripts".

Definition earlier_entry : json :=
  new_entry "ronavi_server.lua" "ronavi_server.lua" "local"
    "2024-03-08T10:00:00Z" (JStr "h1").

Definition earlier_world : world :=
  mk_world [] (File "[...]" (Some (JArr [earlier_entry]))) [] 0 [].

Definition after_local_step : world :=
  snd (local_step conflict_env sync_args "server" "ronavi_server.lua"
         earlier_world).

Definition after_failed_push : world :=
  snd (push_artifact conflict_env sync_args "ronavi_server.lua" "-- server"
         after_local_step).

Definition local_args : arguments :=
  mk_arguments ModeLocal TypeBoth "./output" None "main" None
    "Add RONAVI scripts".



(** The command line with [--outdir ""]. *)
Definition empty_outdir_args : arguments :=
  mk_arguments ModeLocal TypeBoth "" None "main" None "Add RONAVI scripts".

(** The disk lets a run write into [outdir]: the directory can be made, and
    the files named can be opened in it. *)
Definition disk_ready (E : environment) (outdir : string)
    (names : list string) : Prop :=
  os_makedirs E outdir = Ok tt
  /\ forall f, In f names -> open_w E (posixpath.join outdir [f]) = Ok tt.

(** ** Predicates and data of the further properties *)


(** What a step may do to the manifest besides leaving it: [U] relates the
    manifest before to the manifest after; the artifact files are kept. *)
Definition store_bounded {A : Type} (m : M A)
    (U : manifest_file -> manifest_file -> Prop) : Prop :=
  forall w,
    w_files (snd (m w)) = w_files w
    /\ (w_manifest (snd (m w)) = w_manifest w
        \/ U (w_manifest w) (w_manifest (snd (m w)))).


(** The calls a step makes: it appends to the log a tail whose events all
    satisfy [P], at most [n] of them requests to the store. *)
Definition sends {A : Type} (m : M A) (P : net_event -> Prop) (n : nat)
    : Prop :=
  forall w,
    exists tail,
      w_net (snd (m w)) = w_net w ++ tail
      /\ Forall P tail
      /\ List.length (filter is_request tail) <= n.

(** The address of a path of the repository, from the repository name as
    given. *)
Definition repo_url (repo path : string) : string :=
  GITHUB_API +++ "/repos/" +++ repo +++ "/contents/" +++ path.

(** An event of the run of [args]: a chat completion, or a request to the
    contents of the repository of [args], made with its token. *)
Definition to_repo (args : arguments) (ev : net_event) : Prop :=
  match ev with
  | EvRequest (GET url params hdrs) =>
      (exists path, url = repo_url (str_of (arg_repo args)) path)
      /\ params = [("ref", arg_branch args)]
      /\ hdrs = _gh_headers (str_of (arg_github_token args))
  | EvRequest (PUT url hdrs payload) =>
      (exists path, url = repo_url (str_of (arg_repo args)) path)
      /\ hdrs = _gh_headers (str_of (arg_github_token args))
      /\ dict_get payload "branch" = Some (JStr (arg_branch args))
  | EvChat _ _ _ => arg_mode args = ModeAi
  end.


(** The upserts of a run for the files [names], in order, each with a null
    hash and the next reading of the clock. *)
Fixpoint upsert_all (source : string) (clk : nat -> datetime) (k : nat)
    (names : list string) (idx : list json) : result (list json) :=
  match names with
  | [] => Ok idx
  | f :: rest =>
      let? idx1 := upsert idx f f source (isoformat (clk k) +++ "Z") JNull in
      upsert_all source clk (S k) rest idx1
  end.


(** A store that has nothing yet and accepts what it is sent. *)
Definition fresh_store : list net_event -> request -> result response :=
  fun _ r =>
    match r with
    | GET _ _ _ => Ok (mk_response 404 "" None)
    | PUT _ _ _ => Ok (mk_response 201 "" (Some created_body))
    end.

Definition ai_args : arguments :=
  mk_arguments ModeAi TypeBoth "./output" None "main" None
    "Add RONAVI scripts".

Definition fresh_env : environment := sample_env fresh_store.

Definition after_fetch : world :=
  snd (gh_get_file fresh_env "octo/repo" "ronavi_server.lua" "main" "tok"
         earlier_world).

Definition after_write : world :=
  snd (gh_put_file fresh_env "octo/repo" "ronavi_server.lua" "-- server"
         "main" "tok" "Add RONAVI scripts" JNull after_fetch).


(** A run without sync, and the world its first run leaves. *)
Definition offline_env : environment := sample_env (answers 404 None).

Definition after_first_run : world :=
  Eval vm_compute in snd (main offline_env local_args empty_world).

(** * Properties *)

(** ** The model on concrete inputs *)

Example relpath_plain :
  posixpath.relpath "/home/u" (posixpath.join "./output" ["ronavi_server.lua"])
    "./output" = Ok "ronavi_server.lua".
Proof. reflexivity. Qed.

Example relpath_dot_prefix :
  posixpath.relpath "/home/u" (posixpath.join "out" ["./a.lua"]) "out"
  = Ok "a.lua".
Proof. reflexivity. Qed.

Example relpath_subdir :
  posixpath.relpath "/home/u" (posixpath.join "out" ["sub/a.lua"]) "out"
  = Ok "sub/a.lua".
Proof. reflexivity. Qed.

Example relpath_absolute_name :
  posixpath.relpath "/home/u" (posixpath.join "out" ["/etc/a.lua"]) "out"
  = Ok "../../../etc/a.lua".
Proof. reflexivity. Qed.

Example relpath_empty_name :
  posixpath.relpath "/home/u" (posixpath.join "out" [""]) "out" = Ok ".".
Proof. reflexivity. Qed.

Example isoformat_whole_second :
  isoformat (mk_datetime 2024 3 9 7 5 0 0) = "2024-03-09T07:05:00".
Proof. reflexivity. Qed.

Example isoformat_fraction :
  isoformat (mk_datetime 2024 12 31 23 59 58 1250)
  = "2024-12-31T23:59:58.001250".
Proof. reflexivity. Qed.

Example b64encode_Man : b64encode "Man" = "TWFu".
Proof. reflexivity. Qed.

Example b64encode_Ma : b64encode "Ma" = "TWE=".
Proof. reflexivity. Qed.

Example b64encode_M : b64encode "M" = "TQ==".
Proof. reflexivity. Qed.

Example b64encode_hello : b64encode "hello world" = "aGVsbG8gd29ybGQ=".
Proof. reflexivity. Qed.

(** ** Base64 *)

Lemma b64_value_char (n : nat) : n < 64 -> b64_value (b64_char n) = Some n.
Proof.
  intros H. do 64 (destruct n as [|n]; [reflexivity|]). lia.
Qed.

Lemma b64_char_not_pad (n : nat) : n < 64 -> is_pad (b64_char n) = false.
Proof.
  intros H. do 64 (destruct n as [|n]; [reflexivity|]). lia.
Qed.

Lemma string_ind3 (P : string -> Prop) :
  P "" -> (forall a, P (String a "")) ->
  (forall a b, P (String a (String b ""))) ->
  (forall a b c r, P r -> P (String a (String b (String c r)))) ->
  forall s, P s.
Proof.
  intros H0 H1 H2 H3. fix IH 1.
  intros [|a [|b [|c r]]]; [exact H0|apply H1|apply H2|apply H3, IH].
Qed.

Lemma b64decode_quad (c1 c2 c3 c4 : ascii) (r : string) (v1 v2 v3 v4 : nat)
    (rest : string) :
  b64_value c1 = Some v1 -> b64_value c2 = Some v2 ->
  b64_value c3 = Some v3 -> b64_value c4 = Some v4 ->
  is_pad c3 = false -> is_pad c4 = false ->
  b64decode r = Some rest ->
  b64decode (String c1 (String c2 (String c3 (String c4 r))))
  = Some (String (ascii_of_nat (v1 * 4 + v2 / 16))
            (String (ascii_of_nat (v2 mod 16 * 16 + v3 / 4))
               (String (ascii_of_nat (v3 mod 4 * 64 + v4)) rest))).
Proof.
  intros H1 H2 H3 H4 P3 P4 Hr.
  change (b64decode (String c1 (String c2 (String c3 (String c4 r)))))
    with (match b64_value c1, b64_value c2 with
      | Some v1, Some v2 =>
          let a := ascii_of_nat (v1 * 4 + v2 / 16) in
          if is_pad c3 then
            if is_pad c4 && (r =? "")%string then Some (String a "") else None
          else
            match b64_value c3 with
            | Some v3 =>
                let b := ascii_of_nat (v2 mod 16 * 16 + v3 / 4) in
                if is_pad c4 then
                  if (r =? "")%string then Some (String a (String b ""))
                  else None
                else
                  match b64_value c4, b64decode r with
                  | Some v4, Some rest =>
                      Some (String a
                              (String b
                                 (String (ascii_of_nat (v3 mod 4 * 64 + v4))
                                    rest)))
                  | _, _ => None
                  end
            | None => None
            end
      | _, _ => None
      end).
  now rewrite H1, H2, P3, H3, P4, H4, Hr.
Qed.

(** Quotient and remainder of [t] by [d], for [lia]. *)
Ltac divmod t d :=
  pose proof (Nat.div_mod_eq t d);
  pose proof (Nat.mod_upper_bound t d ltac:(lia)).

Lemma b64_first (x y : nat) :
  y < 256 -> x / 4 < 64 -> x / 4 * 4 + (x mod 4 * 16 + y / 16) / 16 = x.
Proof.
  intros Hy _. divmod x 4. divmod y 16. divmod (x mod 4 * 16 + y / 16) 16.
  lia.
Qed.

Lemma b64_second (x y z : nat) :
  y < 256 -> z < 256 ->
  (x mod 4 * 16 + y / 16) mod 16 * 16 + (y mod 16 * 4 + z / 64) / 4 = y.
Proof.
  intros Hy Hz. divmod x 4. divmod y 16. divmod z 64.
  divmod (x mod 4 * 16 + y / 16) 16. divmod (y mod 16 * 4 + z / 64) 4.
  lia.
Qed.

Lemma b64_third (y z : nat) :
  z < 256 -> (y mod 16 * 4 + z / 64) mod 4 * 64 + z mod 64 = z.
Proof.
  intros Hz. divmod y 16. divmod z 64. divmod (y mod 16 * 4 + z / 64) 4.
  lia.
Qed.

Lemma b64_first_last (x : nat) : x / 4 * 4 + x mod 4 * 16 / 16 = x.
Proof. divmod x 4. divmod (x mod 4 * 16) 16. lia. Qed.

Lemma b64_second_last (x y : nat) :
  y < 256 ->
  (x mod 4 * 16 + y / 16) mod 16 * 16 + y mod 16 * 4 / 4 = y.
Proof.
  intros Hy. divmod x 4. divmod y 16.
  divmod (x mod 4 * 16 + y / 16) 16. divmod (y mod 16 * 4) 4. lia.
Qed.

Lemma b64_sextets_last (x y : nat) :
  x mod 4 * 16 < 64 /\ y mod 16 * 4 < 64.
Proof. divmod x 4. divmod y 16. lia. Qed.

Lemma b64_sextets (x y z : nat) :
  x < 256 -> y < 256 -> z < 256 ->
  x / 4 < 64 /\ x mod 4 * 16 + y / 16 < 64 /\ y mod 16 * 4 + z / 64 < 64
  /\ z mod 64 < 64.
Proof.
  intros Hx Hy Hz. divmod x 4. divmod y 16. divmod z 64. lia.
Qed.

(** Decoding gives back the bytes that were encoded. *)
Lemma b64decode_b64encode (s : string) : b64decode (b64encode s) = Some s.
Proof.
  induction s as [|a|a b|a b c r IH] using string_ind3.
  - reflexivity.
  - pose proof (nat_ascii_bounded a) as Ha.
    destruct (b64_sextets (nat_of_ascii a) 0 0 Ha) as (S1 & _);
      [lia|lia|].
    destruct (b64_sextets_last (nat_of_ascii a) 0) as [S2 _].
    change (b64encode (String a ""))
      with (String (b64_char (nat_of_ascii a / 4))
              (String (b64_char (nat_of_ascii a mod 4 * 16)) "==")).
    set (x := nat_of_ascii a) in *.
    change (b64decode _)
      with (match b64_value (b64_char (x / 4)),
                  b64_value (b64_char (x mod 4 * 16)) with
            | Some v1, Some v2 =>
                Some (String (ascii_of_nat (v1 * 4 + v2 / 16)) "")
            | _, _ => None
            end).
    rewrite !b64_value_char by assumption.
    rewrite b64_first_last.
    subst x. now rewrite ascii_nat_embedding.
  - pose proof (nat_ascii_bounded a) as Ha.
    pose proof (nat_ascii_bounded b) as Hb.
    destruct (b64_sextets (nat_of_ascii a) (nat_of_ascii b) 0 Ha Hb)
      as (S1 & S2 & _); [lia|].
    destruct (b64_sextets_last 0 (nat_of_ascii b)) as [_ S3].
    change (b64encode (String a (String b "")))
      with (String (b64_char (nat_of_ascii a / 4))
              (String (b64_char (nat_of_ascii a mod 4 * 16
                                 + nat_of_ascii b / 16))
                 (String (b64_char (nat_of_ascii b mod 16 * 4)) "="))).
    set (x := nat_of_ascii a) in *. set (y := nat_of_ascii b) in *.
    change (b64decode _)
      with (match b64_value (b64_char (x / 4)),
                  b64_value (b64_char (x mod 4 * 16 + y / 16)) with
            | Some v1, Some v2 =>
                if is_pad (b64_char (y mod 16 * 4))
                then Some (String (ascii_of_nat (v1 * 4 + v2 / 16)) "")
                else
                  match b64_value (b64_char (y mod 16 * 4)) with
                  | Some v3 =>
                      Some (String (ascii_of_nat (v1 * 4 + v2 / 16))
                              (String
                                 (ascii_of_nat (v2 mod 16 * 16 + v3 / 4)) ""))
                  | None => None
                  end
            | _, _ => None
            end).
    rewrite !b64_value_char, b64_char_not_pad by assumption.
    rewrite b64_first, b64_second_last by assumption.
    subst x y. now rewrite !ascii_nat_embedding.
  - pose proof (nat_ascii_bounded a) as Ha.
    pose proof (nat_ascii_bounded b) as Hb.
    pose proof (nat_ascii_bounded c) as Hc.
    destruct (b64_sextets (nat_of_ascii a) (nat_of_ascii b) (nat_of_ascii c)
                Ha Hb Hc) as (S1 & S2 & S3 & S4).
    change (b64encode (String a (String b (String c r))))
      with (String (b64_char (nat_of_ascii a / 4))
              (String (b64_char (nat_of_ascii a mod 4 * 16
                                 + nat_of_ascii b / 16))
                 (String (b64_char (nat_of_ascii b mod 16 * 4
                                    + nat_of_ascii c / 64))
                    (String (b64_char (nat_of_ascii c mod 64))
                       (b64encode r))))).
    rewrite (b64decode_quad _ _ _ _ _ _ _ _ _ r
               (b64_value_char _ S1) (b64_value_char _ S2)
               (b64_value_char _ S3) (b64_value_char _ S4)
               (b64_char_not_pad _ S3) (b64_char_not_pad _ S4) IH).
    rewrite b64_first, b64_second, b64_third by assumption.
    now rewrite !ascii_nat_embedding.
Qed.

(** ** Dicts *)

Lemma dict_get_set_same (d : pydict) (k : string) (v : json) :
  dict_get (dict_set d k v) k = Some v.
Proof.
  induction d as [|[k0 v0] r IH]; simpl.
  - now rewrite String.eqb_refl.
  - destruct (String.eqb_spec k0 k) as [->|Hne]; simpl.
    + now rewrite String.eqb_refl.
    + destruct (String.eqb_spec k0 k); [contradiction|exact IH].
Qed.

Lemma dict_get_set_other (d : pydict) (k k' : string) (v : json) :
  k <> k' -> dict_get (dict_set d k v) k' = dict_get d k'.
Proof.
  intros Hne. induction d as [|[k0 v0] r IH]; simpl.
  - destruct (String.eqb_spec k k'); [contradiction|reflexivity].
  - destruct (String.eqb_spec k0 k) as [->|Hk]; simpl.
    + destruct (String.eqb_spec k k'); [contradiction|reflexivity].
    + destruct (String.eqb_spec k0 k'); [reflexivity|exact IH].
Qed.

Lemma dict_set_set_same (d : pydict) (k : string) (v v' : json) :
  dict_set (dict_set d k v) k v' = dict_set d k v'.
Proof.
  induction d as [|[k0 v0] r IH]; simpl.
  - now rewrite String.eqb_refl.
  - destruct (String.eqb_spec k0 k) as [->|Hk]; simpl.
    + now rewrite String.eqb_refl.
    + destruct (String.eqb_spec k0 k); [contradiction|now rewrite IH].
Qed.

(** Two assignments to different keys commute once one key is there. *)
Lemma dict_set_comm (d : pydict) (k k' : string) (v v' : json) :
  k <> k' -> dict_get d k <> None ->
  dict_set (dict_set d k' v') k v = dict_set (dict_set d k v) k' v'.
Proof.
  intros Hne. induction d as [|[k0 v0] r IH]; simpl; intros Hin.
  - contradiction.
  - destruct (String.eqb_spec k0 k') as [E1|Hk'];
      destruct (String.eqb_spec k0 k) as [E2|Hk]; simpl.
    + congruence.
    + destruct (String.eqb_spec k' k); [congruence|].
      destruct (String.eqb_spec k0 k'); [|contradiction].
      reflexivity.
    + destruct (String.eqb_spec k0 k); [|contradiction].
      destruct (String.eqb_spec k k'); [contradiction|reflexivity].
    + destruct (String.eqb_spec k0 k); [contradiction|].
      destruct (String.eqb_spec k0 k'); [contradiction|].
      now rewrite IH.
Qed.

Lemma dict_get_set_present (d : pydict) (k k' : string) (v : json) :
  dict_get d k' <> None -> dict_get (dict_set d k v) k' <> None.
Proof.
  intros H. destruct (String.eqb_spec k k') as [->|Hne].
  - now rewrite dict_get_set_same.
  - now rewrite dict_get_set_other.
Qed.

(** What [e.update] leaves of a dict that was updated before: the second
    update alone. *)
Lemma dict_update_fields_twice (d : pydict) (n s t1 t2 : string) (h : json) :
  dict_update (dict_update d (update_fields n s t1 h)) (update_fields n s t2 h)
  = dict_update d (update_fields n s t2 h).
Proof.
  unfold dict_update, update_fields; simpl.
  set (d1 := dict_set d "name" (JStr n)).
  assert (Hn : dict_get d1 "name" <> None)
    by (unfold d1; now rewrite dict_get_set_same).
  set (d2 := dict_set d1 "source" (JStr s)).
  assert (Hs : dict_get d2 "source" <> None)
    by (unfold d2; now rewrite dict_get_set_same).
  assert (Hn2 : dict_get d2 "name" <> None)
    by (unfold d2; now apply dict_get_set_present).
  set (d3 := dict_set d2 "timestamp" (JStr t1)).
  assert (Hn3 : dict_get d3 "name" <> None)
    by (unfold d3; now apply dict_get_set_present).
  assert (Hs3 : dict_get d3 "source" <> None)
    by (unfold d3; now apply dict_get_set_present).
  assert (Ht3 : dict_get d3 "timestamp" <> None)
    by (unfold d3; now rewrite dict_get_set_same).
  (* name *)
  rewrite (dict_set_comm d3 "name" "blob_sha") by (congruence || assumption).
  unfold d3 at 1.
  rewrite (dict_set_comm d2 "name" "timestamp") by (congruence || assumption).
  unfold d2 at 1.
  rewrite (dict_set_comm d1 "name" "source") by (congruence || assumption).
  unfold d1 at 1. rewrite dict_set_set_same. fold d1.
  (* source *)
  rewrite (dict_set_comm _ "source" "blob_sha")
    by (congruence
        || (apply dict_get_set_present; now rewrite dict_get_set_same)).
  rewrite (dict_set_comm _ "source" "timestamp")
    by (congruence || now rewrite dict_get_set_same).
  rewrite dict_set_set_same.
  (* timestamp *)
  rewrite (dict_set_comm _ "timestamp" "blob_sha")
    by (congruence || now rewrite dict_get_set_same).
  rewrite dict_set_set_same.
  (* blob_sha *)
  now rewrite dict_set_set_same.
Qed.

(** ** The index as a sequence of entries *)

Lemma count_path_cons (e : json) (idx : list json) (p : string) :
  count_path (e :: idx) p
  = (if path_is p e then 1 else 0) + count_path idx p.
Proof. unfold count_path; simpl. now destruct (path_is p e). Qed.

Lemma count_path_app (a b : list json) (p : string) :
  count_path (a ++ b) p = count_path a p + count_path b p.
Proof. unfold count_path. now rewrite filter_app, length_app. Qed.

Lemma path_is_new_entry (q n p s t : string) (h : json) :
  path_is q (new_entry n p s t h) = (p =? q)%string.
Proof. reflexivity. Qed.

Lemma dict_get_update_fields_path (d : pydict) (n s t : string) (h : json) :
  dict_get (dict_update d (update_fields n s t h)) "path" = dict_get d "path".
Proof.
  unfold dict_update, update_fields; simpl.
  now rewrite !dict_get_set_other by discriminate.
Qed.

Lemma path_is_py_update (q : string) (e : json) (n s t : string) (h : json) :
  path_is q (py_update e (update_fields n s t h)) = path_is q e.
Proof.
  destruct e; try reflexivity.
  unfold path_is, py_update, py_get.
  now rewrite dict_get_update_fields_path.
Qed.

Lemma py_update_new_entry (n0 p s0 t0 : string) (h0 : json)
    (n s t : string) (h : json) :
  py_update (new_entry n0 p s0 t0 h0) (update_fields n s t h)
  = new_entry n p s t h.
Proof. reflexivity. Qed.

(** The loop on an index where no entry has the path: nothing changes. *)
Lemma update_loop_miss (idx : list json) (p : string) (f : pydict) :
  all_objects idx -> count_path idx p = 0 ->
  update_loop idx p f = Ok (idx, false).
Proof.
  induction 1 as [|e idx He Hall IH]; intros Hc; [reflexivity|].
  rewrite count_path_cons in Hc.
  destruct e; try discriminate He.
  unfold path_is in Hc. simpl in Hc |- *.
  destruct (py_eq_str _ p); [discriminate|].
  now rewrite IH.
Qed.

(** The loop on an index where some entry has the path: the first such entry
    is updated where it stands. *)
Lemma update_loop_hit (idx : list json) (p : string) (f : pydict) :
  all_objects idx -> count_path idx p <> 0 ->
  exists pre e post,
    idx = pre ++ e :: post /\ count_path pre p = 0 /\ path_is p e = true
    /\ update_loop idx p f = Ok (pre ++ py_update e f :: post, true).
Proof.
  induction 1 as [|e idx He Hall IH]; intros Hc; [now elim Hc|].
  rewrite count_path_cons in Hc.
  destruct (path_is p e) eqn:Hp.
  - exists [], e, idx. repeat split; try assumption.
    destruct e; try discriminate He.
    unfold path_is in Hp. simpl in Hp |- *. now rewrite Hp.
  - destruct (IH Hc) as (pre & x & post & -> & Hpre & Hx & Hloop).
    exists (e :: pre), x, post. repeat split; try assumption.
    + rewrite count_path_cons, Hp. exact Hpre.
    + destruct e; try discriminate He.
      unfold path_is in Hp. simpl in Hp |- *. rewrite Hp.
      now rewrite Hloop.
Qed.

Lemma upsert_miss (idx : list json) (p n s t : string) (h : json) :
  all_objects idx -> count_path idx p = 0 ->
  upsert idx p n s t h = Ok (idx ++ [new_entry n p s t h]).
Proof.
  intros Hall Hc. unfold upsert. now rewrite update_loop_miss.
Qed.

Lemma upsert_hit (idx : list json) (p n s t : string) (h : json) :
  all_objects idx -> count_path idx p <> 0 ->
  exists pre e post,
    idx = pre ++ e :: post /\ count_path pre p = 0 /\ path_is p e = true
    /\ upsert idx p n s t h
       = Ok (pre ++ py_update e (update_fields n s t h) :: post).
Proof.
  intros Hall Hc.
  destruct (update_loop_hit idx p (update_fields n s t h) Hall Hc)
    as (pre & e & post & Hidx & Hpre & He & Hloop).
  exists pre, e, post. repeat split; try assumption.
  unfold upsert. now rewrite Hloop.
Qed.

Lemma all_objects_app (a b : list json) :
  all_objects (a ++ b) <-> all_objects a /\ all_objects b.
Proof. apply Forall_app. Qed.

Lemma is_obj_py_update (e : json) (f : pydict) :
  is_obj (py_update e f) = is_obj e.
Proof. now destruct e. Qed.

Lemma entry_shaped_is_obj (e : json) : entry_shaped e -> is_obj e = true.
Proof. now intros (n & p & s & t & h & ->). Qed.

Lemma shaped_all_objects (idx : list json) :
  Forall entry_shaped idx -> all_objects idx.
Proof.
  intros H. eapply Forall_impl; [|exact H]. apply entry_shaped_is_obj.
Qed.

Lemma reachable_shaped (idx : list json) :
  reachable idx -> Forall entry_shaped idx.
Proof.
  induction 1 as [|idx idx' p n s t h Hr IH Hup]; [constructor|].
  pose proof (shaped_all_objects idx IH) as Hall.
  destruct (Nat.eq_dec (count_path idx p) 0) as [Hc|Hc].
  - rewrite (upsert_miss idx p n s t h Hall Hc) in Hup. injection Hup as <-.
    apply Forall_app; split; [exact IH|].
    constructor; [|constructor]. now exists n, p, s, t, h.
  - destruct (upsert_hit idx p n s t h Hall Hc)
      as (pre & e & post & -> & _ & He & Hup').
    rewrite Hup' in Hup. injection Hup as <-.
    apply Forall_app in IH as [Hpre Hrest].
    inversion Hrest as [|? ? Hsh Hpost]; subst.
    apply Forall_app; split; [exact Hpre|].
    constructor; [|exact Hpost].
    destruct Hsh as (n0 & p0 & s0 & t0 & h0 & ->).
    rewrite py_update_new_entry. now exists n, p0, s, t, h.
Qed.

Lemma reachable_unique (idx : list json) :
  reachable idx -> forall q, count_path idx q <= 1.
Proof.
  induction 1 as [|idx idx' p n s t h Hr IH Hup]; intros q;
    [unfold count_path; simpl; lia|].
  pose proof (shaped_all_objects idx (reachable_shaped idx Hr)) as Hall.
  destruct (Nat.eq_dec (count_path idx p) 0) as [Hc|Hc].
  - rewrite (upsert_miss idx p n s t h Hall Hc) in Hup. injection Hup as <-.
    rewrite count_path_app, count_path_cons, path_is_new_entry.
    unfold count_path at 2; simpl.
    destruct (String.eqb_spec p q) as [<-|Hne].
    + rewrite Hc. lia.
    + specialize (IH q). lia.
  - destruct (upsert_hit idx p n s t h Hall Hc)
      as (pre & e & post & -> & _ & He & Hup').
    rewrite Hup' in Hup. injection Hup as <-.
    specialize (IH q).
    rewrite count_path_app, count_path_cons in IH |- *.
    now rewrite path_is_py_update.
Qed.

Lemma nth_error_middle {A : Type} (pre post : list A) (x : A) :
  nth_error (pre ++ x :: post) (List.length pre) = Some x.
Proof. rewrite nth_error_app2, Nat.sub_diag by lia. reflexivity. Qed.

(** Replacing one element leaves the others where they are. *)
Lemma nth_error_replaced {A : Type} (pre post : list A) (x y : A) (j : nat) :
  j <> List.length pre ->
  nth_error (pre ++ y :: post) j = nth_error (pre ++ x :: post) j.
Proof.
  intros Hj. destruct (Nat.lt_ge_cases j (List.length pre)) as [Hlt|Hge].
  - now rewrite !nth_error_app1 by exact Hlt.
  - rewrite !nth_error_app2 by exact Hge.
    destruct (j - List.length pre) as [|k] eqn:Hk; [lia|reflexivity].
Qed.

(** Appending one element leaves the others where they are. *)
Lemma nth_error_appended {A : Type} (l : list A) (x : A) (j : nat) :
  j <> List.length l -> nth_error (l ++ [x]) j = nth_error l j.
Proof.
  intros Hj. destruct (Nat.lt_ge_cases j (List.length l)) as [Hlt|Hge].
  - now rewrite nth_error_app1 by exact Hlt.
  - assert (Hnone : nth_error l j = None) by now apply nth_error_None.
    rewrite Hnone. apply nth_error_None. rewrite length_app. simpl. lia.
Qed.

Lemma count_path_replaced (pre post : list json) (x y : json) (q : string) :
  path_is q x = path_is q y ->
  count_path (pre ++ y :: post) q = count_path (pre ++ x :: post) q.
Proof.
  intros H. rewrite !count_path_app, !count_path_cons. now rewrite H.
Qed.

(** C5. For every index built by upserts from the empty index: no path has
    more than one entry; an upsert of a path that is present replaces that
    entry where it stands, all five fields written, the entries before and
    after it untouched; an upsert of a path that is absent appends the new
    entry after all the others.  Read off the result: the upsert returns an
    index that is again one built by upserts, in which the path has exactly
    one entry; that entry holds the five values given, and stands where the
    former entry of the path stood, the length unchanged, or at the end, the
    length one more; every other position holds what it held. *)
Theorem upsert_keeps_one_entry_per_path (idx : list json) :
  reachable idx ->
  (forall q, count_path idx q <= 1)
  /\ (forall p n s t h,
        (count_path idx p = 0 ->
         upsert idx p n s t h = Ok (idx ++ [new_entry n p s t h]))
        /\ (count_path idx p <> 0 ->
            exists pre n0 s0 t0 h0 post,
              idx = pre ++ new_entry n0 p s0 t0 h0 :: post
              /\ upsert idx p n s t h
                 = Ok (pre ++ new_entry n p s t h :: post))
        /\ exists idx' i e,
             upsert idx p n s t h = Ok idx'
             /\ reachable idx'
             /\ count_path idx' p = 1
             /\ (forall q, count_path idx' q <= 1)
             /\ nth_error idx' i = Some e
             /\ path_is p e = true
             /\ py_subscript e "name" = Ok (JStr n)
             /\ py_subscript e "path" = Ok (JStr p)
             /\ py_subscript e "source" = Ok (JStr s)
             /\ py_subscript e "timestamp" = Ok (JStr t)
             /\ py_subscript e "blob_sha" = Ok h
             /\ (forall j, j <> i -> nth_error idx' j = nth_error idx j)
             /\ (count_path idx p = 0 ->
                 i = List.length idx
                 /\ List.length idx' = S (List.length idx))
             /\ (count_path idx p <> 0 ->
                 List.length idx' = List.length idx
                 /\ exists e0, nth_error idx i = Some e0
                               /\ path_is p e0 = true)).
Proof.
  intros Hr. split; [now apply reachable_unique|].
  pose proof (reachable_shaped idx Hr) as Hsh.
  pose proof (shaped_all_objects idx Hsh) as Hall.
  intros p n s t h.
  assert (Hmiss : count_path idx p = 0 ->
            upsert idx p n s t h = Ok (idx ++ [new_entry n p s t h]))
    by now apply upsert_miss.
  assert (Hhit : count_path idx p <> 0 ->
            exists pre n0 s0 t0 h0 post,
              idx = pre ++ new_entry n0 p s0 t0 h0 :: post
              /\ upsert idx p n s t h
                 = Ok (pre ++ new_entry n p s t h :: post)).
  { intros Hc.
    destruct (upsert_hit idx p n s t h Hall Hc)
      as (pre & e & post & -> & _ & He & Hup).
    apply Forall_app in Hsh as [_ Hrest].
    inversion Hrest as [|? ? (n0 & p0 & s0 & t0 & h0 & ->) _]; subst.
    rewrite path_is_new_entry in He. apply String.eqb_eq in He as ->.
    exists pre, n0, s0, t0, h0, post. split; [reflexivity|].
    now rewrite Hup, py_update_new_entry. }
  split; [exact Hmiss|]. split; [exact Hhit|].
  assert (Hself : path_is p (new_entry n p s t h) = true)
    by (rewrite path_is_new_entry; apply String.eqb_refl).
  destruct (Nat.eq_dec (count_path idx p) 0) as [Hc|Hc].
  - pose proof (Hmiss Hc) as Hup.
    pose proof (reachable_upsert idx _ p n s t h Hr Hup) as Hr'.
    exists (idx ++ [new_entry n p s t h]), (List.length idx),
      (new_entry n p s t h).
    split; [exact Hup|]. split; [exact Hr'|]. split.
    { rewrite count_path_app, count_path_cons, Hself, Hc.
      reflexivity. }
    split; [now apply reachable_unique|].
    split; [apply nth_error_middle|]. split; [exact Hself|].
    do 5 (split; [reflexivity|]).
    split; [intros j Hj; now apply nth_error_appended|].
    split; [intros _|intros Hne; contradiction].
    split; [reflexivity|]. rewrite length_app. simpl. lia.
  - destruct (Hhit Hc) as (pre & n0 & s0 & t0 & h0 & post & Hidx & Hup).
    pose proof (reachable_upsert idx _ p n s t h Hr Hup) as Hr'.
    assert (Hold : path_is p (new_entry n0 p s0 t0 h0) = true)
      by (rewrite path_is_new_entry; apply String.eqb_refl).
    exists (pre ++ new_entry n p s t h :: post), (List.length pre),
      (new_entry n p s t h).
    split; [exact Hup|]. split; [exact Hr'|]. split.
    { pose proof (reachable_unique idx Hr p) as Hle.
      rewrite Hidx in Hle, Hc.
      rewrite (count_path_replaced pre post (new_entry n0 p s0 t0 h0)
                 (new_entry n p s t h) p) by now rewrite Hself, Hold.
      lia. }
    split; [now apply reachable_unique|].
    split; [apply nth_error_middle|]. split; [exact Hself|].
    do 5 (split; [reflexivity|]).
    split; [intros j Hj; rewrite Hidx; now apply nth_error_replaced|].
    split; [intros Hz; contradiction|intros _].
    split; [rewrite Hidx, !length_app; reflexivity|].
    exists (new_entry n0 p s0 t0 h0). split; [|exact Hold].
    rewrite Hidx. apply nth_error_middle.
Qed.

Lemma upsert_keeps_one_entry_per_path_witness :
  reachable two_index
  /\ count_path two_index "c.lua" = 0
  /\ upsert two_index "c.lua" "c.lua" "ai" "2024-03-09T07:06:00Z" JNull
     = Ok (two_index
           ++ [new_entry "c.lua" "c.lua" "ai" "2024-03-09T07:06:00Z" JNull])
  /\ count_path two_index "a.lua" <> 0
  /\ exists idx' i e,
       upsert two_index "a.lua" "a.lua" "ai" "2024-03-09T07:06:00Z"
         (JStr "h2")
       = Ok idx'
       /\ count_path idx' "a.lua" = 1
       /\ List.length idx' = 2
       /\ nth_error idx' i = Some e
       /\ py_subscript e "blob_sha" = Ok (JStr "h2")
       /\ exists e0, nth_error two_index i = Some e0
                     /\ path_is "a.lua" e0 = true.
Proof.
  assert (H : reachable two_index).
  { apply (reachable_upsert sample_index two_index "b.lua" "b.lua" "local"
             "2024-03-09T07:05:01Z" (JStr "h1")); [|reflexivity].
    apply (reachable_upsert [] sample_index "a.lua" "a.lua" "local"
             "2024-03-09T07:05:00Z" JNull); [|reflexivity].
    apply reachable_empty. }
  assert (Hpresent : count_path two_index "a.lua" <> 0) by discriminate.
  split; [exact H|]. split; [reflexivity|]. split.
  { exact (proj1 (proj2 (upsert_keeps_one_entry_per_path two_index H)
                   "c.lua" "c.lua" "ai" "2024-03-09T07:06:00Z" JNull)
             eq_refl). }
  split; [exact Hpresent|].
  destruct (proj2 (upsert_keeps_one_entry_per_path two_index H)
              "a.lua" "a.lua" "ai" "2024-03-09T07:06:00Z" (JStr "h2"))
    as (_ & _ & idx' & i & e & Hup & _ & Hone & _ & Hi & _ & _ & _ & _ & _
        & Hh & _ & _ & Hplace).
  destruct (Hplace Hpresent) as [Hlen Hwas].
  exists idx', i, e. split; [exact Hup|]. split; [exact Hone|].
  split; [exact Hlen|]. split; [exact Hi|]. split; [exact Hh|exact Hwas].
Defined.

(** ** Upserting twice *)

Lemma count_path_zero_in (idx : list json) (p : string) (e : json) :
  count_path idx p = 0 -> In e idx -> path_is p e = false.
Proof.
  induction idx as [|x idx IH]; intros Hc Hin; [contradiction|].
  rewrite count_path_cons in Hc.
  destruct (path_is p x) eqn:Hx; [discriminate|].
  destruct Hin as [<-|Hin]; [exact Hx|now apply IH].
Qed.

(** The loop, given where the first entry of the path stands. *)
Lemma update_loop_at (pre : list json) (e : json) (post : list json)
    (p : string) (f : pydict) :
  all_objects pre -> count_path pre p = 0 -> path_is p e = true ->
  update_loop (pre ++ e :: post) p f = Ok (pre ++ py_update e f :: post, true).
Proof.
  intros Hall Hc He. induction Hall as [|x pre Hx Hall IH]; simpl.
  - destruct e; try discriminate He.
    unfold path_is in He. simpl in He |- *. now rewrite He.
  - rewrite count_path_cons in Hc.
    destruct x; try discriminate Hx.
    unfold path_is in Hc. simpl in Hc |- *.
    destruct (py_eq_str _ p); [discriminate|].
    now rewrite IH.
Qed.

Lemma upsert_at (pre : list json) (e : json) (post : list json)
    (p n s t : string) (h : json) :
  all_objects pre -> count_path pre p = 0 -> path_is p e = true ->
  upsert (pre ++ e :: post) p n s t h
  = Ok (pre ++ py_update e (update_fields n s t h) :: post).
Proof.
  intros Hall Hc He. unfold upsert. now rewrite update_loop_at.
Qed.

Lemma py_update_twice (e : json) (n s t1 t2 : string) (h : json) :
  py_update (py_update e (update_fields n s t1 h)) (update_fields n s t2 h)
  = py_update e (update_fields n s t2 h).
Proof.
  destruct e; try reflexivity.
  unfold py_update. now rewrite dict_update_fields_twice.
Qed.

(** The four fields [e.update] writes, read back. *)
Lemma py_get_updated (e : json) (n s t : string) (h : json) :
  is_obj e = true ->
  let e' := py_update e (update_fields n s t h) in
  py_get e' "name" = Ok (JStr n) /\ py_get e' "source" = Ok (JStr s)
  /\ py_get e' "timestamp" = Ok (JStr t) /\ py_get e' "blob_sha" = Ok h.
Proof.
  intros He. destruct e; try discriminate He.
  unfold py_update, py_get, dict_update, update_fields; simpl.
  repeat split.
  - now rewrite !dict_get_set_other, dict_get_set_same by discriminate.
  - now rewrite !dict_get_set_other, dict_get_set_same by discriminate.
  - now rewrite !dict_get_set_other, dict_get_set_same by discriminate.
  - now rewrite dict_get_set_same.
Qed.

Lemma path_is_true_get (p : string) (e : json) :
  path_is p e = true -> py_get e "path" = Ok (JStr p).
Proof.
  unfold path_is. destruct e; try discriminate. simpl.
  destruct (dict_get members "path") as [[]|]; try discriminate.
  simpl. now intros ->%String.eqb_eq.
Qed.

Lemma path_is_true_obj (p : string) (e : json) :
  path_is p e = true -> is_obj e = true.
Proof. unfold path_is. now destruct e. Qed.

(** The entries of [pre ++ e :: post] with path [p], when only [e] has it. *)
Lemma only_entry_of_path (pre : list json) (e : json) (post : list json)
    (p : string) (x : json) :
  count_path pre p = 0 -> count_path post p = 0 ->
  In x (pre ++ e :: post) -> path_is p x = true -> x = e.
Proof.
  intros Hpre Hpost Hin Hx.
  apply in_app_or in Hin as [Hin|[<-|Hin]].
  - rewrite (count_path_zero_in pre p x Hpre Hin) in Hx. discriminate.
  - reflexivity.
  - rewrite (count_path_zero_in post p x Hpost Hin) in Hx. discriminate.
Qed.

(** C6. Upsert is idempotent: on an index (a sequence of entry objects with
    at most one entry of the path), two upserts with the same path, name,
    source and remote hash both succeed and leave what the second alone
    leaves (so the two results differ by the timestamp only); the result has
    exactly one entry of the path, and it holds the values of the second
    call. *)
Theorem upsert_idempotent (idx : list json) (p n s t1 t2 : string) (h : json) :
  all_objects idx -> count_path idx p <= 1 ->
  exists idx1 idx2,
    upsert idx p n s t1 h = Ok idx1
    /\ upsert idx1 p n s t2 h = Ok idx2
    /\ upsert idx p n s t2 h = Ok idx2
    /\ count_path idx2 p = 1
    /\ (forall e, In e idx2 -> path_is p e = true ->
          py_get e "name" = Ok (JStr n) /\ py_get e "path" = Ok (JStr p)
          /\ py_get e "source" = Ok (JStr s)
          /\ py_get e "timestamp" = Ok (JStr t2)
          /\ py_get e "blob_sha" = Ok h).
Proof.
  intros Hall Hle.
  destruct (Nat.eq_dec (count_path idx p) 0) as [Hc|Hc].
  - exists (idx ++ [new_entry n p s t1 h]), (idx ++ [new_entry n p s t2 h]).
    assert (Hnew : forall t, path_is p (new_entry n p s t h) = true)
      by (intros t; rewrite path_is_new_entry; apply String.eqb_refl).
    refine (conj _ (conj _ (conj _ (conj _ _)))).
    + now apply upsert_miss.
    + rewrite upsert_at by auto. now rewrite py_update_new_entry.
    + now apply upsert_miss.
    + rewrite count_path_app, count_path_cons, Hnew, Hc. reflexivity.
    + intros x Hin Hx.
      assert (x = new_entry n p s t2 h) as ->
        by (apply (only_entry_of_path idx _ [] p); auto).
      repeat split; reflexivity.
  - destruct (upsert_hit idx p n s t2 h Hall Hc)
      as (pre & e & post & -> & Hpre & He & Hup2).
    apply all_objects_app in Hall as [Hallpre Hallrest].
    assert (Hpost : count_path post p = 0).
    { rewrite count_path_app, count_path_cons, He, Hpre in Hle. simpl in Hle.
      lia. }
    pose proof (path_is_true_obj p e He) as Hobj.
    exists (pre ++ py_update e (update_fields n s t1 h) :: post),
           (pre ++ py_update e (update_fields n s t2 h) :: post).
    assert (He2 : path_is p (py_update e (update_fields n s t2 h)) = true)
      by now rewrite path_is_py_update.
    destruct (py_get_updated e n s t2 h Hobj) as (Gn & Gs & Gt & Gh).
    refine (conj _ (conj _ (conj _ (conj _ _)))).
    + now apply upsert_at.
    + rewrite upsert_at by (try rewrite path_is_py_update; auto).
      now rewrite py_update_twice.
    + exact Hup2.
    + rewrite count_path_app, count_path_cons, He2, Hpre, Hpost. reflexivity.
    + intros x Hin Hx.
      rewrite (only_entry_of_path pre _ post p x Hpre Hpost Hin Hx).
      repeat split; try assumption.
      now apply path_is_true_get.
Qed.

Lemma upsert_idempotent_witness :
  all_objects sample_index /\ count_path sample_index "a.lua" <= 1
  /\ exists idx1 idx2,
       upsert sample_index "a.lua" "a.lua" "ai" "t1" (JStr "abc") = Ok idx1
       /\ upsert idx1 "a.lua" "a.lua" "ai" "t2" (JStr "abc") = Ok idx2
       /\ upsert sample_index "a.lua" "a.lua" "ai" "t2" (JStr "abc") = Ok idx2
       /\ count_path idx2 "a.lua" = 1.
Proof.
  assert (Hall : all_objects sample_index)
    by (constructor; [reflexivity|constructor]).
  assert (Hle : count_path sample_index "a.lua" <= 1) by apply le_n.
  split; [exact Hall|]. split; [exact Hle|].
  destruct (upsert_idempotent sample_index "a.lua" "a.lua" "ai" "t1" "t2"
              (JStr "abc") Hall Hle)
    as (idx1 & idx2 & H1 & H2 & H3 & H4 & _).
  exists idx1, idx2. repeat split; assumption.
Defined.

(** ** Paths *)

Module PathFacts.
Import posixpath.

Lemma append_empty_r (s : string) : s +++ "" = s.
Proof. induction s; simpl; congruence. Qed.

Lemma append_assoc (a b c : string) : (a +++ b) +++ c = a +++ b +++ c.
Proof. induction a; simpl; congruence. Qed.

Lemma append_eq_empty (a b : string) : a +++ b = "" -> a = "" /\ b = "".
Proof. destruct a; simpl; [auto|discriminate]. Qed.

Lemma isabs_inv (s : string) : isabs s = true -> exists r, s = String sep r.
Proof.
  unfold isabs. destruct s as [|c r]; simpl; [discriminate|].
  rewrite andb_true_r. intros ->%Ascii.eqb_eq. now exists r.
Qed.

Lemma isabs_cons (r : string) : isabs (String sep r) = true.
Proof. reflexivity. Qed.

Lemma isabs_no_sep (f : string) : has_sep f = false -> isabs f = false.
Proof.
  intros H. destruct (isabs f) eqn:E; [|reflexivity].
  apply isabs_inv in E as [r ->]. discriminate H.
Qed.

Lemma isabs_append (a b : string) :
  a <> "" -> isabs (a +++ b) = isabs a.
Proof.
  destruct a as [|c a]; [congruence|intros _]. reflexivity.
Qed.

Lemma endswith_sep_append (a b : string) :
  b <> "" -> endswith_sep (a +++ b) = endswith_sep b.
Proof.
  intros Hb. induction a as [|c a IH]; [reflexivity|].
  simpl. destruct (a +++ b) eqn:E; [|exact IH].
  apply append_eq_empty in E as [_ ->]. congruence.
Qed.

Lemma endswith_sep_inv (s : string) :
  endswith_sep s = true -> exists s0, s = s0 +++ "/".
Proof.
  induction s as [|c s IH]; [discriminate|].
  destruct s as [|d s].
  - simpl. intros ->%Ascii.eqb_eq. now exists "".
  - intros H. destruct (IH H) as [s0 ->]. now exists (String c s0).
Qed.

(** [join] with one more part, for a part that is not absolute. *)
Lemma join2_relative (a b : string) :
  isabs b = false ->
  join2 a b = if ((a =? "")%string || endswith_sep a)%bool then a +++ b
              else a +++ "/" +++ b.
Proof. unfold join2, isabs. now intros ->. Qed.

Lemma join2_relative_isabs (a b : string) :
  isabs b = false -> a <> "" -> isabs (join2 a b) = isabs a.
Proof.
  intros Hb Ha. rewrite join2_relative by assumption.
  destruct (_ || _)%bool; now apply isabs_append.
Qed.

Lemma join2_assoc (a b f : string) :
  isabs b = false -> isabs f = false ->
  join2 a (join2 b f) = join2 (join2 a b) f.
Proof.
  intros Hb Hf.
  destruct (String.eqb_spec b "") as [->|Hne].
  - rewrite (join2_relative "" f Hf). simpl.
    rewrite (join2_relative a "" Hb), (join2_relative a f Hf).
    destruct (String.eqb_spec a "") as [->|Ha]; simpl.
    + now rewrite (join2_relative "" f Hf).
    + destruct (endswith_sep a) eqn:Ea.
      * rewrite append_empty_r, (join2_relative a f Hf), Ea.
        destruct (String.eqb_spec a ""); [contradiction|reflexivity].
      * rewrite (join2_relative _ f Hf).
        rewrite endswith_sep_append by discriminate. simpl.
        rewrite orb_true_r. now rewrite !append_assoc.
  - assert (Hbf : isabs (join2 b f) = false)
      by (rewrite join2_relative_isabs; assumption).
    rewrite (join2_relative a _ Hbf), (join2_relative a b Hb).
    rewrite (join2_relative b f Hf).
    assert (Hb' : (b =? "")%string = false) by now apply String.eqb_neq.
    rewrite Hb'. simpl.
    destruct ((a =? "")%string || endswith_sep a)%bool eqn:Ea.
    + rewrite (join2_relative (a +++ b) f Hf).
      rewrite endswith_sep_append by assumption.
      destruct (String.eqb_spec (a +++ b) "") as [E|_].
      { apply append_eq_empty in E as [_ ->]. contradiction. }
      simpl. destruct (endswith_sep b); now rewrite !append_assoc.
    + rewrite (join2_relative _ f Hf).
      rewrite (endswith_sep_append a (String "/" b)) by discriminate.
      assert (Hs : endswith_sep (String "/" b) = endswith_sep b)
        by (destruct b; [contradiction|reflexivity]).
      destruct (String.eqb_spec (a +++ String "/" b) "") as [E|_].
      { apply append_eq_empty in E as [_ E]. discriminate. }
      rewrite Hs. simpl.
      destruct (endswith_sep b); now rewrite !append_assoc.
Qed.

(** *** Splitting and joining at the separator *)

Lemma split_sep_nonnil (s : string) : split_sep s <> [].
Proof.
  induction s as [|c s IH]; simpl; [discriminate|].
  destruct (Ascii.eqb c sep); [discriminate|].
  now destruct (split_sep s).
Qed.

Lemma split_sep_app_sep (a b : string) :
  split_sep (a +++ String sep b) = split_sep a ++ split_sep b.
Proof.
  induction a as [|c a IH]; [reflexivity|].
  simpl. destruct (Ascii.eqb c sep).
  - simpl. now rewrite IH.
  - rewrite IH. pose proof (split_sep_nonnil a).
    now destruct (split_sep a).
Qed.

Lemma split_sep_no_sep (f : string) : has_sep f = false -> split_sep f = [f].
Proof.
  induction f as [|c f IH]; [reflexivity|].
  simpl. destruct (Ascii.eqb c sep); [discriminate|].
  simpl. intros H. now rewrite IH.
Qed.

Lemma split_sep_comps (s : string) :
  Forall (fun c => has_sep c = false) (split_sep s).
Proof.
  induction s as [|c s IH]; simpl; [now repeat constructor|].
  destruct (Ascii.eqb c sep) eqn:E; [now constructor|].
  destruct (split_sep s) as [|h t]; [now repeat constructor; simpl; rewrite E|].
  inversion IH; subst. constructor; [|assumption].
  simpl. now rewrite E.
Qed.

Lemma clean_removelast (l : list string) : clean l -> clean (removelast l).
Proof.
  induction 1 as [|x l Hx Hl IH]; [constructor|].
  simpl. destruct l; [constructor|]. now constructor.
Qed.

Lemma normpath_step_clean (i : nat) (acc : list string) (c : string) :
  clean acc -> has_sep c = false -> clean (normpath_step i acc c).
Proof.
  intros Hacc Hc. unfold normpath_step.
  destruct (String.eqb_spec c "") as [->|Hne]; [exact Hacc|].
  simpl. destruct (c =? ".")%string; [exact Hacc|].
  destruct (_ || _)%bool.
  - apply Forall_app; split; [exact Hacc|].
    constructor; [|constructor]. split; [|exact Hc].
    unfold nonempty. now apply String.eqb_neq in Hne as ->.
  - now apply clean_removelast.
Qed.

Lemma fold_normpath_clean (i : nat) (l acc : list string) :
  clean acc -> Forall (fun c => has_sep c = false) l ->
  clean (fold_left (normpath_step i) l acc).
Proof.
  intros Hacc Hl. revert acc Hacc.
  induction Hl as [|c l Hc Hl IH]; intros acc Hacc; [exact Hacc|].
  simpl. apply IH. now apply normpath_step_clean.
Qed.

Lemma norm_comps_clean (path : string) : clean (norm_comps path).
Proof.
  unfold norm_comps. apply fold_normpath_clean;
    [constructor|apply split_sep_comps].
Qed.

Lemma split_join_sep (l : list string) :
  clean l -> filter nonempty (split_sep (join_sep l)) = l.
Proof.
  induction 1 as [|x l [Hx Hs] Hl IH]; [reflexivity|].
  unfold join_sep in *. simpl. destruct l as [|y l].
  - rewrite split_sep_no_sep by assumption. simpl. now rewrite Hx.
  - change ("/" +++ concat "/" (y :: l))
      with (String sep (concat "/" (y :: l))).
    rewrite split_sep_app_sep, split_sep_no_sep by assumption.
    cbn [app filter]. rewrite Hx. now rewrite IH.
Qed.

(** *** [normpath] and [abspath] of an absolute path *)

Lemma initial_slashes_isabs (path : string) :
  isabs path = true ->
  initial_slashes_of path = 1 \/ initial_slashes_of path = 2.
Proof.
  unfold initial_slashes_of, isabs. intros ->.
  destruct (_ && _)%bool; auto.
Qed.

Lemma normpath_step_rooted (i j : nat) (acc : list string) (c : string) :
  i <> 0 -> j <> 0 -> normpath_step i acc c = normpath_step j acc c.
Proof.
  intros Hi Hj. unfold normpath_step.
  apply Nat.eqb_neq in Hi, Hj. now rewrite Hi, Hj.
Qed.

Lemma fold_normpath_rooted (i j : nat) (l acc : list string) :
  i <> 0 -> j <> 0 ->
  fold_left (normpath_step i) l acc = fold_left (normpath_step j) l acc.
Proof.
  intros Hi Hj. revert acc.
  induction l as [|c l IH]; intros acc; [reflexivity|].
  simpl. now rewrite IH, (normpath_step_rooted i j).
Qed.

Lemma split_normpath_isabs (path : string) :
  isabs path = true ->
  filter nonempty (split_sep (normpath path)) = norm_comps path.
Proof.
  intros Habs. unfold normpath.
  destruct (isabs_inv path Habs) as [r ->].
  change (String sep r =? "")%string with false. cbv iota.
  pose proof (split_join_sep _ (norm_comps_clean (String sep r))) as Hsj.
  destruct (initial_slashes_isabs _ Habs) as [->| ->]; simpl repeat_str;
    cbv zeta; simpl String.eqb; cbv iota; simpl split_sep; simpl filter;
    exact Hsj.
Qed.

(** *** A plain file name joined to a directory *)

Lemma is_bare_name_inv (f : string) :
  is_bare_name f = true ->
  (f =? "")%string = false /\ has_sep f = false
  /\ (f =? ".")%string = false /\ (f =? "..")%string = false.
Proof.
  unfold is_bare_name, nonempty.
  intros H. repeat (apply andb_prop in H as [H ?]).
  repeat split; now apply negb_true_iff.
Qed.

Lemma normpath_step_bare (i : nat) (acc : list string) (f : string) :
  is_bare_name f = true -> normpath_step i acc f = acc ++ [f].
Proof.
  intros (H0 & _ & H1 & H2)%is_bare_name_inv.
  unfold normpath_step. now rewrite H0, H1, H2.
Qed.

Lemma normpath_step_empty (i : nat) (acc : list string) :
  normpath_step i acc "" = acc.
Proof. reflexivity. Qed.

Lemma norm_comps_join (X f : string) :
  isabs X = true -> is_bare_name f = true ->
  norm_comps (join2 X f) = norm_comps X ++ [f].
Proof.
  intros HX Hf.
  pose proof (is_bare_name_inv f Hf) as (Hne & Hsep & _ & _).
  pose proof (isabs_no_sep f Hsep) as Hrel.
  destruct (isabs_inv X HX) as [r HXr].
  assert (HXne : X <> "") by (rewrite HXr; discriminate).
  assert (Habs' : isabs (join2 X f) = true)
    by now rewrite join2_relative_isabs.
  assert (Hi : initial_slashes_of X <> 0)
    by (destruct (initial_slashes_isabs X HX) as [->| ->]; discriminate).
  assert (Hj : initial_slashes_of (join2 X f) <> 0)
    by (destruct (initial_slashes_isabs _ Habs') as [->| ->]; discriminate).
  unfold norm_comps.
  rewrite (fold_normpath_rooted _ (initial_slashes_of X) _ _ Hj Hi).
  rewrite join2_relative by assumption.
  apply String.eqb_neq in HXne as ->. simpl orb.
  generalize (initial_slashes_of X). intros i.
  destruct (endswith_sep X) eqn:Ee.
  - destruct (endswith_sep_inv X Ee) as [X0 E0].
    rewrite E0.
    rewrite append_assoc.
    change ("/" +++ f) with (String sep f).
    change (X0 +++ "/") with (X0 +++ String sep "").
    rewrite !split_sep_app_sep, !fold_left_app.
    rewrite (split_sep_no_sep f Hsep). simpl split_sep.
    cbn [fold_left]. rewrite normpath_step_empty.
    now apply normpath_step_bare.
  - change ("/" +++ f) with (String sep f).
    rewrite split_sep_app_sep, fold_left_app, (split_sep_no_sep f Hsep).
    cbn [fold_left]. now apply normpath_step_bare.
Qed.

(** *** [commonprefix] of a list and its extension *)

Lemma list_ltb_extension (l r : list string) : list_ltb (l ++ r) l = false.
Proof.
  induction l as [|x l IH]; simpl.
  - now destruct r.
  - now rewrite String.eqb_refl.
Qed.

Lemma commonprefix_loop_extension (l r : list string) (i : nat)
    (whole : list string) :
  commonprefix_loop l (l ++ r) i whole = Ok whole.
Proof.
  revert i. induction l as [|x l IH]; intros i; simpl; [reflexivity|].
  now rewrite String.eqb_refl.
Qed.

Lemma commonprefix_loop_same (l : list string) (i : nat)
    (whole : list string) :
  commonprefix_loop l l i whole = Ok whole.
Proof.
  rewrite <- (app_nil_r l) at 2. apply commonprefix_loop_extension.
Qed.

Lemma commonprefix_extension (l r : list string) :
  commonprefix l (l ++ r) = Ok l.
Proof.
  unfold commonprefix. rewrite list_ltb_extension.
  destruct (list_ltb l (l ++ r)).
  - apply commonprefix_loop_extension.
  - apply commonprefix_loop_same.
Qed.

(** *** The relative path of a file of the directory *)

Lemma abspath_isabs_arg (cwd path : string) :
  isabs cwd = true ->
  exists X, isabs X = true /\ abspath cwd path = normpath X
            /\ X = (if isabs path then path else join2 cwd path).
Proof.
  intros Hcwd. unfold abspath, join. simpl fold_left.
  destruct (isabs path) eqn:Hp.
  - now exists path.
  - exists (join2 cwd path). repeat split.
    rewrite join2_relative_isabs; try assumption.
    destruct (isabs_inv cwd Hcwd) as [r ->]. discriminate.
Qed.

Lemma relpath_of_joined (cwd outdir f : string) :
  isabs cwd = true -> is_bare_name f = true ->
  relpath cwd (join outdir [f]) outdir = Ok f.
Proof.
  intros Hcwd Hf.
  pose proof (is_bare_name_inv f Hf) as (Hne & Hsep & _ & _).
  pose proof (isabs_no_sep f Hsep) as Hrel.
  apply String.eqb_neq in Hne.
  unfold relpath, join. simpl fold_left.
  destruct (String.eqb_spec (join2 outdir f) "") as [E|_].
  { rewrite join2_relative in E by assumption.
    destruct (_ || _)%bool; apply append_eq_empty in E as [_ E];
      [contradiction|discriminate]. }
  destruct (abspath_isabs_arg cwd outdir Hcwd) as (X & HX & -> & HXdef).
  assert (Hpath : abspath cwd (join2 outdir f) = normpath (join2 X f)).
  { unfold abspath, join. simpl fold_left. rewrite HXdef.
    destruct (isabs outdir) eqn:Ho.
    - rewrite join2_relative_isabs, Ho; try assumption; [reflexivity|].
      destruct (isabs_inv outdir Ho) as [r ->]. discriminate.
    - assert (Hjo : isabs (join2 outdir f) = false).
      { destruct (String.eqb_spec outdir "") as [->|Hone].
        - now rewrite join2_relative.
        - now rewrite join2_relative_isabs. }
      rewrite Hjo. now rewrite join2_assoc. }
  rewrite Hpath.
  rewrite !split_normpath_isabs;
    [|now rewrite join2_relative_isabs;
        [| |destruct (isabs_inv X HX) as [r ->]; discriminate] |assumption].
  rewrite norm_comps_join by assumption.
  rewrite commonprefix_extension. simpl rbind.
  rewrite Nat.sub_diag. simpl repeat. simpl app.
  rewrite skipn_app, skipn_all, Nat.sub_diag. reflexivity.
Qed.

End PathFacts.

(** ** Timestamps *)





(** ** [update_local_index] *)

Lemma find_first_of_path (pre : list json) (e : json) (post : list json)
    (p : string) :
  count_path pre p = 0 -> path_is p e = true ->
  find (path_is p) (pre ++ e :: post) = Some e.
Proof.
  intros Hc He. induction pre as [|x pre IH]; simpl.
  - now rewrite He.
  - rewrite count_path_cons in Hc.
    destruct (path_is p x); [discriminate|]. now apply IH.
Qed.

Lemma py_subscript_updated (e : json) (n s t : string) (h : json) :
  is_obj e = true ->
  let e' := py_update e (update_fields n s t h) in
  py_subscript e' "name" = Ok (JStr n)
  /\ py_subscript e' "source" = Ok (JStr s)
  /\ py_subscript e' "timestamp" = Ok (JStr t)
  /\ py_subscript e' "blob_sha" = Ok h
  /\ (forall k, k <> "name" -> k <> "source" -> k <> "timestamp" ->
                k <> "blob_sha" -> py_subscript e' k = py_subscript e k).
Proof.
  intros He. destruct e; try discriminate He.
  unfold py_update, py_subscript, dict_update, update_fields; simpl.
  repeat split.
  - now rewrite !dict_get_set_other, dict_get_set_same by discriminate.
  - now rewrite !dict_get_set_other, dict_get_set_same by discriminate.
  - now rewrite !dict_get_set_other, dict_get_set_same by discriminate.
  - now rewrite dict_get_set_same.
  - intros k H1 H2 H3 H4. now rewrite !dict_get_set_other by congruence.
Qed.

Lemma path_is_true_subscript (p : string) (e : json) :
  path_is p e = true -> py_subscript e "path" = Ok (JStr p).
Proof.
  unfold path_is. destruct e; try discriminate. simpl.
  destruct (dict_get members "path") as [[]|]; try discriminate.
  simpl. now intros ->%String.eqb_eq.
Qed.

(** What [upsert] does to an index of objects, and the entry it writes. *)
Lemma upsert_written (idx : list json) (p n s t : string) (h : json) :
  all_objects idx ->
  exists idx' e,
    upsert idx p n s t h = Ok idx'
    /\ written_entry p idx' = Some e
    /\ ((count_path idx p = 0 /\ e = new_entry n p s t h /\ idx' = idx ++ [e])
        \/ (exists pre old post,
              idx = pre ++ old :: post /\ count_path pre p = 0
              /\ path_is p old = true
              /\ e = py_update old (update_fields n s t h)
              /\ idx' = pre ++ e :: post)).
Proof.
  intros Hall. unfold written_entry.
  destruct (Nat.eq_dec (count_path idx p) 0) as [Hc|Hc].
  - exists (idx ++ [new_entry n p s t h]), (new_entry n p s t h).
    split; [now apply upsert_miss|]. split; [|now left].
    apply find_first_of_path; [exact Hc|].
    rewrite path_is_new_entry. apply String.eqb_refl.
  - destruct (upsert_hit idx p n s t h Hall Hc)
      as (pre & old & post & -> & Hpre & Hold & Hup).
    exists (pre ++ py_update old (update_fields n s t h) :: post),
           (py_update old (update_fields n s t h)).
    split; [exact Hup|]. split.
    + apply find_first_of_path; [exact Hpre|].
      now rewrite path_is_py_update.
    + right. now exists pre, old, post.
Qed.

Lemma upsert_written_fields (idx : list json) (p n s t : string) (h : json) :
  all_objects idx ->
  exists idx' e,
    upsert idx p n s t h = Ok idx'
    /\ written_entry p idx' = Some e
    /\ py_subscript e "name" = Ok (JStr n)
    /\ py_subscript e "path" = Ok (JStr p)
    /\ py_subscript e "source" = Ok (JStr s)
    /\ py_subscript e "timestamp" = Ok (JStr t)
    /\ py_subscript e "blob_sha" = Ok h.
Proof.
  intros Hall.
  destruct (upsert_written idx p n s t h Hall)
    as (idx' & e & Hup & Hw & [(_ & -> & _)|(pre & old & post & _ & _ & Hold & -> & _)]).
  - exists idx', (new_entry n p s t h). now repeat split.
  - exists idx', (py_update old (update_fields n s t h)).
    destruct (py_subscript_updated old n s t h (path_is_true_obj p old Hold))
      as (Gn & Gs & Gt & Gh & Gk).
    repeat split; try assumption.
    rewrite Gk by discriminate. now apply path_is_true_subscript.
Qed.

Section LocalIndexFacts.

Variable json_dumps : json -> string.
Variable getcwd : string.
Variable open_w : string -> result unit.

(** The call, once the relative path and the upsert are known. *)
Lemma update_local_index_ok (outdir filename source : string)
    (blob_sha : json) (utcnow : datetime) (m : manifest_file)
    (rel_path : string) (entries' : list json) :
  posixpath.relpath getcwd (posixpath.join outdir [filename]) outdir
  = Ok rel_path ->
  upsert (load_entries m) rel_path filename source (isoformat utcnow +++ "Z")
    blob_sha = Ok entries' ->
  open_w (posixpath.join outdir [INDEX_FILENAME]) = Ok tt ->
  update_local_index json_dumps getcwd open_w outdir filename source blob_sha
    utcnow m
  = (Ok (posixpath.join outdir [INDEX_FILENAME]),
     File (json_dumps (JArr entries')) (Some (JArr entries'))).
Proof.
  intros Hrel Hup Hopen. unfold update_local_index.
  now rewrite Hrel, Hup, Hopen.
Qed.

(** The call when the manifest cannot be opened for writing: the exception
    of [open] goes to the caller and the file is as it was. *)
Lemma update_local_index_not_opened (outdir filename source : string)
    (blob_sha : json) (utcnow : datetime) (m : manifest_file)
    (rel_path : string) (entries' : list json) (x : exn) :
  posixpath.relpath getcwd (posixpath.join outdir [filename]) outdir
  = Ok rel_path ->
  upsert (load_entries m) rel_path filename source (isoformat utcnow +++ "Z")
    blob_sha = Ok entries' ->
  open_w (posixpath.join outdir [INDEX_FILENAME]) = Raise x ->
  update_local_index json_dumps getcwd open_w outdir filename source blob_sha
    utcnow m
  = (Raise x, m).
Proof.
  intros Hrel Hup Hopen. unfold update_local_index.
  now rewrite Hrel, Hup, Hopen.
Qed.

End LocalIndexFacts.

(** C10 (amended). For every call of [update_local_index] whose file name is
    a plain one (not empty, no separator, neither [.] nor [..]), made from an
    absolute working directory on a manifest of objects, the entry the call
    creates or overwrites has its path and its name both equal to the file
    name, which has no directory component; the call returns and saves it
    when the manifest opens for writing, and passes on the exception of
    [open], the file untouched, when it does not. *)
Theorem update_local_index_path_is_name (json_dumps : json -> string)
    (open_w : string -> result unit)
    (cwd outdir filename source : string) (blob_sha : json)
    (utcnow : datetime) (m : manifest_file) :
  posixpath.isabs cwd = true ->
  is_bare_name filename = true ->
  all_objects (load_entries m) ->
  exists entries' e,
    (open_w (posixpath.join outdir [INDEX_FILENAME]) = Ok tt ->
     update_local_index json_dumps cwd open_w outdir filename source blob_sha
       utcnow m
     = (Ok (posixpath.join outdir [INDEX_FILENAME]),
        File (json_dumps (JArr entries')) (Some (JArr entries'))))
    /\ (forall x, open_w (posixpath.join outdir [INDEX_FILENAME]) = Raise x ->
         update_local_index json_dumps cwd open_w outdir filename source
           blob_sha utcnow m
         = (Raise x, m))
    /\ written_entry filename entries' = Some e
    /\ py_subscript e "path" = Ok (JStr filename)
    /\ py_subscript e "name" = Ok (JStr filename)
    /\ has_sep filename = false.
Proof.
  intros Hcwd Hbare Hall.
  pose proof (PathFacts.relpath_of_joined cwd outdir filename Hcwd Hbare)
    as Hrel.
  destruct (upsert_written_fields (load_entries m) filename filename source
              (isoformat utcnow +++ "Z") blob_sha Hall)
    as (entries' & e & Hup & Hw & Gn & Gp & _).
  exists entries', e.
  split; [intros Hopen; now apply update_local_index_ok
                                with (rel_path := filename)|].
  split; [intros x Hopen; now apply update_local_index_not_opened
                                  with (rel_path := filename)
                                       (entries' := entries')|].
  repeat split; try assumption.
  now apply PathFacts.is_bare_name_inv in Hbare as (_ & ? & _).
Qed.

Lemma update_local_index_path_is_name_witness :
  posixpath.isabs "/home/u" = true
  /\ is_bare_name "ronavi_server.lua" = true
  /\ all_objects (load_entries (File "" (Some (JArr sample_index))))
  /\ exists entries' e,
       update_local_index blank_dumps "/home/u" disk_ok "./output"
         "ronavi_server.lua"
         "local" JNull sample_time (File "" (Some (JArr sample_index)))
       = (Ok (posixpath.join "./output" [INDEX_FILENAME]),
          File (blank_dumps (JArr entries')) (Some (JArr entries')))
       /\ written_entry "ronavi_server.lua" entries' = Some e
       /\ py_subscript e "path" = Ok (JStr "ronavi_server.lua")
       /\ py_subscript e "name" = Ok (JStr "ronavi_server.lua")
       /\ has_sep "ronavi_server.lua" = false.
Proof.
  assert (Hall : all_objects (load_entries (File "" (Some (JArr sample_index)))))
    by (constructor; [reflexivity|constructor]).
  split; [reflexivity|]. split; [reflexivity|]. split; [exact Hall|].
  destruct (update_local_index_path_is_name blank_dumps disk_ok "/home/u"
              "./output" "ronavi_server.lua" "local" JNull sample_time
              (File "" (Some (JArr sample_index))) eq_refl eq_refl Hall)
    as (entries' & e & Hsaved & _ & Hrest).
  exists entries', e. split; [exact (Hsaved eq_refl)|exact Hrest].
Defined.

(** C10, as stated, fails: with the file name [./a.lua] the recorded path is
    [a.lua] and differs from the name; with [sub/a.lua] the recorded path
    keeps the directory component. *)
Lemma update_local_index_path_not_always_name :
  (let e := new_entry "./a.lua" "a.lua" "local" "2024-03-09T07:05:00Z" JNull in
   update_local_index blank_dumps "/home/u" disk_ok "out" "./a.lua" "local"
     JNull
     sample_time Missing
   = (Ok "out/rgeres_index.json", File "" (Some (JArr [e])))
   /\ py_subscript e "path" = Ok (JStr "a.lua")
   /\ py_subscript e "name" = Ok (JStr "./a.lua"))
  /\ (let e := new_entry "sub/a.lua" "sub/a.lua" "local"
                 "2024-03-09T07:05:00Z" JNull in
      update_local_index blank_dumps "/home/u" disk_ok "out" "sub/a.lua"
        "local" JNull
        sample_time Missing
      = (Ok "out/rgeres_index.json", File "" (Some (JArr [e])))
      /\ py_subscript e "path" = Ok (JStr "sub/a.lua")
      /\ has_sep "sub/a.lua" = true).
Proof. repeat split. Qed.

(** ** The fields of an entry *)






(** ** A manifest that is not an index *)

(** A missing file, a file [json.load] fails on, and a JSON value that is
    not an array all give no entry. *)
Lemma load_entries_invalid (m : manifest_file) :
  m = Missing \/ (exists raw, m = File raw None)
  \/ (exists raw j, m = File raw (Some j)
                    /\ forall items, j <> JArr items) ->
  load_entries m = [].
Proof.
  intros [->|[(raw & ->)|(raw & j & -> & Hj)]]; try reflexivity.
  destruct j; try reflexivity. now elim (Hj items).
Qed.

(** On such a manifest the update starts from no entry and, when the file
    opens for writing, saves one. *)
Lemma update_local_index_from_invalid_manifest (json_dumps : json -> string)
    (open_w : string -> result unit)
    (cwd outdir filename source : string) (blob_sha : json)
    (utcnow : datetime) (m : manifest_file) (rel_path : string) :
  load_entries m = [] ->
  posixpath.relpath cwd (posixpath.join outdir [filename]) outdir
  = Ok rel_path ->
  open_w (posixpath.join outdir [INDEX_FILENAME]) = Ok tt ->
  let e := new_entry filename rel_path source (isoformat utcnow +++ "Z")
             blob_sha in
  update_local_index json_dumps cwd open_w outdir filename source blob_sha
    utcnow m
  = (Ok (posixpath.join outdir [INDEX_FILENAME]),
     File (json_dumps (JArr [e])) (Some (JArr [e]))).
Proof.
  intros Hload Hrel Hopen e.
  apply update_local_index_ok with (rel_path := rel_path);
    [exact Hrel| |exact Hopen].
  now rewrite Hload.
Qed.

(** C4 (the code departs from it). A manifest holding the JSON array [[1]]
    is a list, so it is kept; the loop then calls [get] on the number and
    the call ends in [AttributeError], the manifest left as it was. *)
Theorem update_local_index_raises_on_non_object_entry :
  update_local_index blank_dumps "/home/u" disk_ok "out" "a.lua" "local" JNull
    sample_time (File "[1]" (Some (JArr [JInt 1])))
  = (Raise AttributeError, File "[1]" (Some (JArr [JInt 1]))).
Proof. reflexivity. Qed.

(** ** The remote client *)

(** The body of a PUT, read field by field: the message, the bytes in
    base64, the branch, and the hash when there is one to send. *)
Lemma put_payload_fields (content_bytes branch message : string) (sha : json) :
  let payload := put_payload content_bytes branch message sha in
  dict_get payload "message" = Some (JStr message)
  /\ (exists c, dict_get payload "content" = Some (JStr c)
                /\ b64decode c = Some content_bytes)
  /\ dict_get payload "branch" = Some (JStr branch)
  /\ (truthy sha = false ->
      dict_get payload "sha" = None
      /\ dict_keys payload = ["message"; "content"; "branch"])
  /\ (truthy sha = true ->
      dict_get payload "sha" = Some sha
      /\ dict_keys payload = ["message"; "content"; "branch"; "sha"]).
Proof.
  unfold put_payload. destruct (truthy sha); cbn [dict_set dict_get dict_keys];
    simpl; (split; [reflexivity|]);
    (split; [exists (b64encode content_bytes);
             split; [reflexivity|apply b64decode_b64encode]|]);
    (split; [reflexivity|]); split; intros H; try discriminate H;
    now split.
Qed.

Section RemoteFacts.

Variable E : environment.

(** C2 (amended). [gh_get_file], with [requests] installed and a repository
    name of the form owner/name, sends one GET; when the store answers, a
    status of 200 gives the decoded body and every other status gives [None]:
    a not-found answer, and an authorization failure or a server error just
    the same, so that no error is raised for them. *)
Theorem gh_get_file_status (repo path ref token owner name : string)
    (w : world) (resp : response) :
  requests_installed E = true ->
  split_once repo = [owner; name] ->
  server E (w_net w)
    (GET (contents_url owner name path) [("ref", ref)] (_gh_headers token))
  = Ok resp ->
  fst (gh_get_file E repo path ref token w)
  = (if Nat.eqb (status_code resp) 200 then resp_json resp else Ok JNull)
  /\ (status_code resp <> 200 ->
      fst (gh_get_file E repo path ref token w) = Ok JNull)
  /\ w_net (snd (gh_get_file E repo path ref token w))
     = w_net w
       ++ [EvRequest (GET (contents_url owner name path) [("ref", ref)]
                        (_gh_headers token))].
Proof.
  intros Hreq Hrepo Hresp.
  unfold gh_get_file, bind, send, lift, ret.
  rewrite Hreq. change (negb true) with false. cbv beta iota.
  rewrite Hrepo. cbv beta iota. rewrite Hresp.
  destruct (Nat.eqb (status_code resp) 200) eqn:E200; simpl.
  - repeat split. intros Hne. apply Nat.eqb_eq in E200. contradiction.
  - repeat split.
Qed.

(** C7. [gh_put_file], with [requests] installed and a repository name of
    the form owner/name, sends one PUT whose body holds the message, the
    bytes in base64 and the branch, and which carries no [sha] when no hash
    is given, or an empty one (a creation), and the given hash when one is
    (an update in place); when the store answers 200 or 201 it returns the
    decoded body of the answer, and on every other status it raises
    [RuntimeError]. *)
Theorem gh_put_file_status (repo path content_bytes branch token message
    owner name : string) (sha : json) (w : world) (resp : response) :
  requests_installed E = true ->
  split_once repo = [owner; name] ->
  server E (w_net w)
    (PUT (contents_url owner name path) (_gh_headers token)
       (put_payload content_bytes branch message sha))
  = Ok resp ->
  let run := gh_put_file E repo path content_bytes branch token message sha
               w in
  (sha = JNull ->
   dict_get (put_payload content_bytes branch message sha) "sha" = None)
  /\ (forall h, sha = JStr h -> h <> "" ->
      dict_get (put_payload content_bytes branch message sha) "sha"
      = Some (JStr h))
  /\ w_net (snd run)
     = w_net w
       ++ [EvRequest (PUT (contents_url owner name path) (_gh_headers token)
                        (put_payload content_bytes branch message sha))]
  /\ (status_code resp = 200 \/ status_code resp = 201 ->
      fst run = resp_json resp
      /\ forall body, json_body resp = Some body -> fst run = Ok body)
  /\ (status_code resp <> 200 -> status_code resp <> 201 ->
      fst run
      = Raise (RuntimeError ("GitHub API error "
                             +++ str_of_nat (status_code resp) +++ ": "
                             +++ text resp)))
  /\ (let payload := put_payload content_bytes branch message sha in
      dict_get payload "message" = Some (JStr message)
      /\ (exists c, dict_get payload "content" = Some (JStr c)
                    /\ b64decode c = Some content_bytes)
      /\ dict_get payload "branch" = Some (JStr branch)
      /\ (truthy sha = false ->
          dict_get payload "sha" = None
          /\ dict_keys payload = ["message"; "content"; "branch"])
      /\ (truthy sha = true ->
          dict_get payload "sha" = Some sha
          /\ dict_keys payload = ["message"; "content"; "branch"; "sha"])
      /\ (sha = JStr "" -> dict_get payload "sha" = None)).
Proof.
  intros Hreq Hrepo Hresp run. subst run.
  assert (Hbody :
            let payload := put_payload content_bytes branch message sha in
            dict_get payload "message" = Some (JStr message)
            /\ (exists c, dict_get payload "content" = Some (JStr c)
                          /\ b64decode c = Some content_bytes)
            /\ dict_get payload "branch" = Some (JStr branch)
            /\ (truthy sha = false ->
                dict_get payload "sha" = None
                /\ dict_keys payload = ["message"; "content"; "branch"])
            /\ (truthy sha = true ->
                dict_get payload "sha" = Some sha
                /\ dict_keys payload
                   = ["message"; "content"; "branch"; "sha"])
            /\ (sha = JStr "" -> dict_get payload "sha" = None)).
  { destruct (put_payload_fields content_bytes branch message sha)
      as (Fm & Fc & Fb & Fn & Fs).
    cbv zeta. split; [exact Fm|]. split; [exact Fc|]. split; [exact Fb|].
    split; [exact Fn|]. split; [exact Fs|].
    intros ->. exact (proj1 (Fn eq_refl)). }
  unfold gh_put_file, bind, send, lift, raise.
  rewrite Hreq. change (negb true) with false. cbv beta iota.
  rewrite Hrepo. cbv beta iota. rewrite Hresp.
  split; [now intros ->|].
  split.
  { intros h -> Hh. unfold put_payload. simpl truthy.
    apply String.eqb_neq in Hh. now rewrite Hh. }
  destruct (Nat.eqb_spec (status_code resp) 200) as [E200|E200];
    destruct (Nat.eqb_spec (status_code resp) 201) as [E201|E201]; simpl;
    (split; [reflexivity|]); (split; [|split; [|exact Hbody]]).
  all: try (intros _; split;
            [reflexivity
            |intros body Hb; unfold resp_json; now rewrite Hb]).
  all: try (intros [H|H]; contradiction).
  all: intros H1 H2; first [contradiction|reflexivity].
Qed.

End RemoteFacts.

Lemma gh_get_file_status_witness :
  requests_installed (sample_env (answers 404 None)) = true
  /\ split_once "octo/repo" = ["octo"; "repo"]
  /\ server (sample_env (answers 404 None)) (w_net empty_world)
       (GET (contents_url "octo" "repo" "a.lua") [("ref", "main")]
          (_gh_headers "tok"))
     = Ok (mk_response 404 "" None)
  /\ fst (gh_get_file (sample_env (answers 404 None)) "octo/repo" "a.lua"
            "main" "tok" empty_world)
     = Ok JNull.
Proof.
  split; [reflexivity|]. split; [reflexivity|]. split; [reflexivity|].
  exact (proj1 (gh_get_file_status (sample_env (answers 404 None))
                  "octo/repo" "a.lua" "main" "tok" "octo" "repo" empty_world
                  (mk_response 404 "" None) eq_refl eq_refl eq_refl)).
Defined.

(** C2, as stated, fails: an authorization failure (401) and a server error
    (500) give [None], not an error. *)
Lemma gh_get_file_hides_other_failures :
  fst (gh_get_file (sample_env (answers 401 None)) "octo/repo" "a.lua" "main"
         "tok" empty_world) = Ok JNull
  /\ fst (gh_get_file (sample_env (answers 500 None)) "octo/repo" "a.lua"
            "main" "tok" empty_world) = Ok JNull.
Proof. split; reflexivity. Qed.

Lemma gh_put_file_status_witness :
  requests_installed (sample_env (answers 201 (Some created_body))) = true
  /\ split_once "octo/repo" = ["octo"; "repo"]
  /\ server (sample_env (answers 201 (Some created_body)))
       (w_net empty_world)
       (PUT (contents_url "octo" "repo" "a.lua") (_gh_headers "tok")
          (put_payload "print(1)" "main" "msg" (JStr "h1")))
     = Ok (mk_response 201 "" (Some created_body))
  /\ fst (gh_put_file (sample_env (answers 201 (Some created_body)))
            "octo/repo" "a.lua" "print(1)" "main" "tok" "msg" (JStr "h1")
            empty_world)
     = Ok created_body
  /\ dict_get (put_payload "print(1)" "main" "msg" (JStr "h1")) "sha"
     = Some (JStr "h1")
  /\ dict_get (put_payload "print(1)" "main" "msg" (JStr "h1")) "message"
     = Some (JStr "msg").
Proof.
  split; [reflexivity|]. split; [reflexivity|]. split; [reflexivity|].
  destruct (gh_put_file_status (sample_env (answers 201 (Some created_body)))
              "octo/repo" "a.lua" "print(1)" "main" "tok" "msg" "octo" "repo"
              (JStr "h1") empty_world
              (mk_response 201 "" (Some created_body))
              eq_refl eq_refl eq_refl)
    as (_ & _ & _ & H & _ & Hm & _ & _ & _ & Hs & _).
  split; [exact (proj2 (H (or_intror eq_refl)) _ eq_refl)|].
  split; [exact (proj1 (Hs eq_refl))|exact Hm].
Defined.

(** ** Saving the manifest, step by step *)

Lemma save_reaches_inv (text : string) (entries : list json)
    (old : manifest_file) (s : save_state) :
  save_reaches text entries old s ->
  match pc_of s with
  | BeforeOpen => disk_of s = old
  | Writing => truncated (disk_of s)
  | Closed => disk_of s = File text (Some (JArr entries))
  | Failed => disk_of s = old \/ truncated (disk_of s)
  end.
Proof.
  induction 1 as [|s s' Hr IH Hstep]; [reflexivity|].
  destruct Hstep; simpl in *.
  - now exists "".
  - now left.
  - now eexists.
  - now right.
  - reflexivity.
Qed.

(** C8 (amended). Saving the manifest is an overwrite in place.  A save that
    cannot open the file leaves the manifest as it was, and a save that runs
    to its end leaves the whole new manifest; but from the opening of the
    file to its closing, and after a failure while writing, the file holds a
    truncated text, which a reader loads as an index without entries. *)
Theorem save_overwrites_in_place (text : string) (entries : list json)
    (old : manifest_file) (s : save_state) :
  save_reaches text entries old s ->
  (pc_of s = BeforeOpen -> disk_of s = old)
  /\ (pc_of s = Closed -> disk_of s = File text (Some (JArr entries))
                          /\ reader_sees s = entries)
  /\ (pc_of s = Writing -> truncated (disk_of s) /\ reader_sees s = [])
  /\ (pc_of s = Failed ->
      disk_of s = old \/ (truncated (disk_of s) /\ reader_sees s = [])).
Proof.
  intros Hr. pose proof (save_reaches_inv text entries old s Hr) as Hinv.
  unfold reader_sees.
  split; [intros Hpc; rewrite Hpc in Hinv; exact Hinv|].
  split; [intros Hpc; rewrite Hpc in Hinv; split;
          [exact Hinv|now rewrite Hinv]|].
  split; [intros Hpc; rewrite Hpc in Hinv; split;
          [exact Hinv|now destruct Hinv as [prefix ->]]|].
  intros Hpc. rewrite Hpc in Hinv.
  destruct Hinv as [Hold|Htr]; [now left|right].
  split; [exact Htr|]. now destruct Htr as [prefix ->].
Qed.


Lemma save_overwrites_in_place_witness :
  save_reaches "[]" [] sample_manifest (Writing, File "" None)
  /\ reader_sees (Writing, File "" None) = [].
Proof.
  assert (H : save_reaches "[]" [] sample_manifest (Writing, File "" None)).
  { apply reaches_step with (s := (BeforeOpen, sample_manifest)).
    - apply reaches_start.
    - apply step_open. }
  split; [exact H|].
  destruct (save_overwrites_in_place "[]" [] sample_manifest
              (Writing, File "" None) H) as (_ & _ & Hw & _).
  exact (proj2 (Hw eq_refl)).
Defined.

(** C8, as stated, fails: while the new manifest is being saved over a valid
    one, a reader can find the file emptied, neither the old manifest nor the
    new one; and a save that fails after the file was opened leaves it so:
    the valid manifest is lost. *)
Lemma save_is_not_all_or_nothing :
  (exists s, save_reaches "[]" [] sample_manifest s
             /\ ~ all_or_nothing "[]" [] sample_manifest s
             /\ reader_sees s = [])
  /\ (exists s, save_reaches "[]" [] sample_manifest s
                /\ pc_of s = Failed
                /\ disk_of s <> sample_manifest
                /\ reader_sees s <> load_entries sample_manifest).
Proof.
  assert (H : save_reaches "[]" [] sample_manifest (Writing, File "" None)).
  { apply reaches_step with (s := (BeforeOpen, sample_manifest)).
    - apply reaches_start.
    - apply step_open. }
  split.
  - exists (Writing, File "" None). split; [exact H|]. split; [|reflexivity].
    intros [E|E]; discriminate E.
  - exists (Failed, File "" None). split; [|repeat split; discriminate].
    apply reaches_step with (s := (Writing, File "" None)); [exact H|].
    apply step_write_fails.
Qed.

(** ** What an upsert leaves, read off its result *)

Lemma update_loop_inv (idx : list json) (p : string) (f : pydict)
    (l : list json) (b : bool) :
  update_loop idx p f = Ok (l, b) ->
  if b then
    exists pre e post,
      idx = pre ++ e :: post /\ all_objects pre /\ count_path pre p = 0
      /\ path_is p e = true /\ l = pre ++ py_update e f :: post
  else all_objects idx /\ count_path idx p = 0 /\ l = idx.
Proof.
  revert l b. induction idx as [|e rest IH]; intros l b; simpl.
  - intros [= <- <-]. repeat split. constructor.
  - destruct e; try discriminate. simpl.
    set (v := match dict_get members "path" with
              | Some v => v
              | None => JNull
              end).
    destruct (py_eq_str v p) eqn:Hv.
    + intros [= <- <-]. exists [], (JObj members), rest.
      repeat split; [constructor|exact Hv].
    + destruct (update_loop rest p f) as [[l' b']|] eqn:Hloop;
        [|discriminate].
      simpl. intros [= <- <-]. specialize (IH l' b' eq_refl).
      assert (Hp : path_is p (JObj members) = false) by exact Hv.
      destruct b'.
      * destruct IH as (pre & x & post & -> & Hall & Hc & Hx & ->).
        exists (JObj members :: pre), x, post. repeat split; try assumption.
        -- now constructor.
        -- now rewrite count_path_cons, Hp.
      * destruct IH as (Hall & Hc & ->). repeat split.
        -- now constructor.
        -- now rewrite count_path_cons, Hp.
Qed.

Lemma upsert_inv (idx : list json) (p n s t : string) (h : json)
    (idx' : list json) :
  upsert idx p n s t h = Ok idx' ->
  (all_objects idx /\ count_path idx p = 0
   /\ idx' = idx ++ [new_entry n p s t h])
  \/ (exists pre e post,
        idx = pre ++ e :: post /\ all_objects pre /\ count_path pre p = 0
        /\ path_is p e = true
        /\ idx' = pre ++ py_update e (update_fields n s t h) :: post).
Proof.
  unfold upsert.
  destruct (update_loop idx p _) as [[l b]|] eqn:Hloop; [|discriminate].
  apply update_loop_inv in Hloop. simpl. destruct b; intros [= <-].
  - now right.
  - left. now destruct Hloop as (? & ? & ->).
Qed.

(** The entry a successful upsert writes, and its five fields. *)
Lemma upsert_ok_fields (idx : list json) (p n s t : string) (h : json)
    (idx' : list json) :
  upsert idx p n s t h = Ok idx' ->
  exists e,
    written_entry p idx' = Some e
    /\ py_subscript e "name" = Ok (JStr n)
    /\ py_subscript e "path" = Ok (JStr p)
    /\ py_subscript e "source" = Ok (JStr s)
    /\ py_subscript e "timestamp" = Ok (JStr t)
    /\ py_subscript e "blob_sha" = Ok h.
Proof.
  intros [(Hall & Hc & ->)|(pre & old & post & -> & Hall & Hc & Hold & ->)]
    %upsert_inv; unfold written_entry.
  - exists (new_entry n p s t h). repeat split.
    apply find_first_of_path; [exact Hc|].
    rewrite path_is_new_entry. apply String.eqb_refl.
  - exists (py_update old (update_fields n s t h)).
    destruct (py_subscript_updated old n s t h (path_is_true_obj p old Hold))
      as (Gn & Gs & Gt & Gh & Gk).
    repeat split; try assumption.
    + apply find_first_of_path; [exact Hc|]. now rewrite path_is_py_update.
    + rewrite Gk by discriminate. now apply path_is_true_subscript.
Qed.

Lemma upsert_all_objects (idx : list json) (p n s t : string) (h : json)
    (idx' : list json) :
  all_objects idx -> upsert idx p n s t h = Ok idx' -> all_objects idx'.
Proof.
  intros Hall
    [(_ & _ & ->)|(pre & old & post & -> & _ & _ & Hold & ->)]%upsert_inv.
  - apply all_objects_app; split; [exact Hall|].
    constructor; [reflexivity|constructor].
  - apply all_objects_app in Hall as [Hpre Hrest].
    inversion Hrest as [|? ? Ho Hpost]; subst.
    apply all_objects_app; split; [exact Hpre|].
    constructor; [now rewrite is_obj_py_update|exact Hpost].
Qed.

Lemma upsert_total (idx : list json) (p n s t : string) (h : json) :
  all_objects idx -> exists idx', upsert idx p n s t h = Ok idx'.
Proof.
  intros Hall.
  destruct (upsert_written idx p n s t h Hall) as (idx' & _ & Hup & _).
  now exists idx'.
Qed.

Lemma path_is_two (p q : string) (e : json) :
  path_is p e = true -> q <> p -> path_is q e = false.
Proof.
  intros Hp Hne. destruct (path_is q e) eqn:Hq; [|reflexivity].
  apply path_is_true_subscript in Hp, Hq. congruence.
Qed.

Lemma find_path_app (q : string) (a b : list json) :
  find (path_is q) (a ++ b)
  = match find (path_is q) a with
    | Some x => Some x
    | None => find (path_is q) b
    end.
Proof.
  induction a as [|x a IH]; [reflexivity|].
  simpl. now destruct (path_is q x).
Qed.

(** An upsert of one path leaves the entry of every other path. *)
Lemma written_entry_upsert_other (idx : list json) (p n s t : string)
    (h : json) (idx' : list json) (q : string) :
  q <> p -> upsert idx p n s t h = Ok idx' ->
  written_entry q idx' = written_entry q idx.
Proof.
  intros Hne
    [(_ & _ & ->)|(pre & old & post & -> & _ & _ & Hold & ->)]%upsert_inv;
    unfold written_entry; rewrite !find_path_app.
  - destruct (find (path_is q) idx); [reflexivity|].
    simpl. rewrite path_is_new_entry.
    destruct (String.eqb_spec p q); [congruence|reflexivity].
  - destruct (find (path_is q) pre); [reflexivity|].
    simpl. rewrite path_is_py_update.
    now rewrite (path_is_two p q old Hold Hne).
Qed.

Lemma update_local_index_raise_keeps (json_dumps : json -> string)
    (open_w : string -> result unit)
    (cwd outdir filename source : string) (blob_sha : json)
    (utcnow : datetime) (m m' : manifest_file) (e : exn) :
  update_local_index json_dumps cwd open_w outdir filename source blob_sha
    utcnow m
  = (Raise e, m') ->
  m' = m.
Proof.
  unfold update_local_index.
  destruct (posixpath.relpath _ _ _); [|now intros [= _ <-]].
  destruct (upsert _ _ _ _ _ _); [|now intros [= _ <-]].
  destruct (open_w _) as [[]|]; [discriminate|now intros [= _ <-]].
Qed.

(** The call on a plain file name, read off its result. *)
Lemma update_local_index_bare_inv (json_dumps : json -> string)
    (open_w : string -> result unit)
    (cwd outdir filename source : string) (blob_sha : json)
    (utcnow : datetime) (m m' : manifest_file) (p : string) :
  posixpath.isabs cwd = true ->
  is_bare_name filename = true ->
  update_local_index json_dumps cwd open_w outdir filename source blob_sha
    utcnow m
  = (Ok p, m') ->
  exists entries',
    m' = File (json_dumps (JArr entries')) (Some (JArr entries'))
    /\ upsert (load_entries m) filename filename source
         (isoformat utcnow +++ "Z") blob_sha = Ok entries'.
Proof.
  intros Hcwd Hbare. unfold update_local_index.
  rewrite (PathFacts.relpath_of_joined cwd outdir filename Hcwd Hbare).
  destruct (upsert _ _ _ _ _ _) as [entries'|]; [|discriminate].
  destruct (open_w _) as [[]|]; [|discriminate].
  intros [= _ <-]. now exists entries'.
Qed.

(** ** The driver *)

Lemma keeps_store_ret {A : Type} (a : A) : keeps_store (ret a).
Proof. now intros w. Qed.

Lemma keeps_store_raise {A : Type} (e : exn) : keeps_store (@raise A e).
Proof. now intros w. Qed.

Lemma keeps_store_lift {A : Type} (r : result A) : keeps_store (lift r).
Proof. now intros w. Qed.

Lemma keeps_store_print (l : out_line) : keeps_store (print l).
Proof. now intros w. Qed.

Lemma keeps_store_bind {A B : Type} (m : M A) (k : A -> M B) :
  keeps_store m -> (forall a, keeps_store (k a)) -> keeps_store (bind m k).
Proof.
  intros Hm Hk w. unfold bind. specialize (Hm w).
  destruct (m w) as [[a|e] w1]; simpl in Hm |- *.
  - destruct (Hk a w1) as [Hf Hman]. destruct Hm as [Hm1 Hm2].
    split; congruence.
  - exact Hm.
Qed.

Lemma failure_keeps_store_bind {A B : Type} (m : M A) (k : A -> M B) :
  keeps_store m -> (forall a, failure_keeps_store (k a)) ->
  failure_keeps_store (bind m k).
Proof.
  intros Hm Hk w e w'. unfold bind. specialize (Hm w).
  destruct (m w) as [[a|e0] w1]; simpl in Hm.
  - intros Hrun. destruct (Hk a w1 e w' Hrun) as [Hf Hman].
    destruct Hm as [Hm1 Hm2]. split; congruence.
  - now intros [= _ <-].
Qed.

Lemma failure_keeps_store_of_keeps {A : Type} (m : M A) :
  keeps_store m -> failure_keeps_store m.
Proof.
  intros Hm w e w' Hrun. specialize (Hm w). now rewrite Hrun in Hm.
Qed.

Lemma append_inj_l (a x y : string) : a +++ x = a +++ y -> x = y.
Proof.
  induction a as [|c a IH]; simpl; [auto|]. intros [= H]. now apply IH.
Qed.

(** Two plain names give two files of the directory. *)
Lemma join_bare_inj (outdir f g : string) :
  is_bare_name f = true -> is_bare_name g = true ->
  posixpath.join outdir [f] = posixpath.join outdir [g] -> f = g.
Proof.
  intros (_ & Hf & _)%PathFacts.is_bare_name_inv
         (_ & Hg & _)%PathFacts.is_bare_name_inv.
  unfold posixpath.join; simpl.
  rewrite !PathFacts.join2_relative by now apply PathFacts.isabs_no_sep.
  destruct (_ || _)%bool; intros H%append_inj_l;
    [exact H|now apply (append_inj_l "/")].
Qed.

Lemma to_create_names (args : arguments) (stype fname : string) :
  In (stype, fname) (to_create args) ->
  (stype = "server" /\ fname = "ronavi_server.lua")
  \/ (stype = "local" /\ fname = "ronavi_local.lua").
Proof.
  unfold to_create. destruct (arg_type args); simpl;
    intros H; repeat destruct H as [[= <- <-]|H]; auto; contradiction.
Qed.

Lemma to_create_bare (args : arguments) (a : string * string) :
  In a (to_create args) -> is_bare_name (snd a) = true.
Proof.
  destruct a as [stype fname].
  now intros [[-> ->]|[-> ->]]%to_create_names.
Qed.

Lemma to_create_nodup (args : arguments) : NoDup (map snd (to_create args)).
Proof.
  unfold to_create. destruct (arg_type args); simpl;
    repeat constructor; simpl; intuition discriminate.
Qed.

Section MainFacts.

Variable E : environment.

Lemma keeps_store_send (r : request) : keeps_store (send E r).
Proof. now intros w. Qed.

Lemma keeps_store_gh_get_file (repo path ref token : string) :
  keeps_store (gh_get_file E repo path ref token).
Proof.
  unfold gh_get_file.
  destruct (negb (requests_installed E)); [apply keeps_store_raise|].
  destruct (split_once repo) as [|owner [|name [|? ?]]];
    try apply keeps_store_raise.
  apply keeps_store_bind; [apply keeps_store_send|].
  intros resp. destruct (Nat.eqb _ _);
    [apply keeps_store_lift|apply keeps_store_ret].
Qed.

Lemma keeps_store_gh_put_file (repo path content_bytes branch token message
    : string) (sha : json) :
  keeps_store (gh_put_file E repo path content_bytes branch token message sha).
Proof.
  unfold gh_put_file.
  destruct (negb (requests_installed E)); [apply keeps_store_raise|].
  destruct (split_once repo) as [|owner [|name [|? ?]]];
    try apply keeps_store_raise.
  apply keeps_store_bind; [apply keeps_store_send|].
  intros resp. destruct (_ || _)%bool;
    [apply keeps_store_lift|apply keeps_store_raise].
Qed.

Lemma failure_keeps_store_update_index (outdir filename source : string)
    (blob_sha : json) :
  failure_keeps_store
    (bind (update_index E outdir filename source blob_sha) (fun _ => ret tt)).
Proof.
  intros w e w'. unfold bind, update_index, ret.
  destruct (update_local_index _ _ _ _ _ _ _ _ _) as [[p|e0] m] eqn:Hu.
  - discriminate.
  - apply update_local_index_raise_keeps in Hu as ->. now intros [= _ <-].
Qed.

(** A push that fails leaves the files and the manifest as they were. *)
Lemma failure_keeps_store_push_artifact (args : arguments)
    (fname contents : string) :
  failure_keeps_store (push_artifact E args fname contents).
Proof.
  unfold push_artifact.
  apply failure_keeps_store_bind; [apply keeps_store_gh_get_file|intros ?].
  apply failure_keeps_store_bind; [apply keeps_store_lift|intros ?].
  apply failure_keeps_store_bind; [apply keeps_store_gh_put_file|intros ?].
  apply failure_keeps_store_bind; [apply keeps_store_lift|intros ?].
  apply failure_keeps_store_bind; [apply keeps_store_print|intros ?].
  apply failure_keeps_store_update_index.
Qed.

(** What producing the text does to the world. *)
Lemma produce_effect (args : arguments) (stype : string) (w : world) :
  let rw := produce E args stype w in
  w_files (snd rw) = w_files w /\ w_manifest (snd rw) = w_manifest w
  /\ w_ticks (snd rw) = w_ticks w
  /\ filter is_request (w_net (snd rw)) = filter is_request (w_net w)
  /\ (arg_mode args = ModeLocal ->
      rw = (generate_local_script E stype, w)).
Proof.
  unfold produce, generate_ai_script, lift, raise.
  destruct (arg_mode args); simpl; [now repeat split|].
  destruct (openai_installed E); simpl; [|now repeat split].
  destruct (given (OPENAI_API_KEY E)); simpl; [|now repeat split].
  repeat split; try discriminate.
  rewrite filter_app. simpl. apply app_nil_r.
Qed.

(** [save_file] on a disk that makes the directory and opens the file. *)
Lemma save_file_ok (contents outdir filename : string) (w : world) :
  os_makedirs E outdir = Ok tt ->
  open_w E (posixpath.join outdir [filename]) = Ok tt ->
  save_file E contents outdir filename w
  = (Ok (posixpath.join outdir [filename]),
     mk_world ((posixpath.join outdir [filename], contents) :: w_files w)
       (w_manifest w) (w_net w) (w_ticks w) (w_stdout w)).
Proof.
  intros Hdir Hopen. unfold save_file, bind, lift, write_file, ret.
  now rewrite Hdir, Hopen.
Qed.

(** [save_file] in general: it writes the file and returns its path, or it
    raises what [os.makedirs] or [open] raised and has written nothing. *)
Lemma save_file_cases (contents outdir filename : string) (w : world) :
  (os_makedirs E outdir = Ok tt
   /\ open_w E (posixpath.join outdir [filename]) = Ok tt
   /\ save_file E contents outdir filename w
      = (Ok (posixpath.join outdir [filename]),
         mk_world ((posixpath.join outdir [filename], contents) :: w_files w)
           (w_manifest w) (w_net w) (w_ticks w) (w_stdout w)))
  \/ (exists e,
        save_file E contents outdir filename w = (Raise e, w)
        /\ (os_makedirs E outdir = Raise e
            \/ (os_makedirs E outdir = Ok tt
                /\ open_w E (posixpath.join outdir [filename]) = Raise e))).
Proof.
  unfold save_file, bind, lift, write_file, ret.
  destruct (os_makedirs E outdir) as [[]|e].
  - destruct (open_w E _) as [[]|e].
    + left. now repeat split.
    + right. exists e. split; [reflexivity|]. right. now split.
  - right. exists e. split; [reflexivity|]. now left.
Qed.

(** [local_step], read off a run that succeeded. *)
Lemma local_step_inv (args : arguments) (stype fname contents : string)
    (w w1 : world) :
  local_step E args stype fname w = (Ok contents, w1) ->
  exists w0 p,
    produce E args stype w = (Ok contents, w0)
    /\ update_local_index (json_dumps E) (getcwd E) (open_w E) (arg_outdir
      args) fname
         (mode_str (arg_mode args)) JNull (clock E (w_ticks w0))
         (w_manifest w0)
       = (Ok p, w_manifest w1)
    /\ w_files w1
       = (posixpath.join (arg_outdir args) [fname], contents) :: w_files w0
    /\ w_net w1 = w_net w0.
Proof.
  unfold local_step, bind.
  destruct (produce E args stype w) as [[c|e] w0]; [|discriminate].
  destruct (save_file_cases c (arg_outdir args) fname w0)
    as [(_ & _ & ->)|(e & -> & _)]; [|discriminate].
  unfold print, update_index, ret. simpl.
  destruct (update_local_index _ _ _ _ _ _ _ _ _) as [[p|e] m'] eqn:Hu;
    [|discriminate].
  simpl. intros [= <- <-]. exists w0, p. now repeat split.
Qed.

(** C3 (amended). When the push of an artifact fails, at whatever step of
    the fetch, the write or the reading of the answer, the failure is caught
    and printed: the artifact is done with, the loop goes on with the
    artifacts that remain, and the failed push has changed neither the files
    nor the manifest.  The entry of the artifact is the one the local update
    wrote just before the push, its remote hash null: a hash recorded by an
    earlier run is not kept. *)
Theorem push_failure_is_contained (args : arguments)
    (stype fname contents : string) (w w1 w2 : world) (e : exn) :
  sync_requested args = true ->
  posixpath.isabs (getcwd E) = true ->
  In (stype, fname) (to_create args) ->
  local_step E args stype fname w = (Ok contents, w1) ->
  push_artifact E args fname contents w1 = (Raise e, w2) ->
  let w3 := snd (print (OutPushFailed e) w2) in
  process_artifact E args (stype, fname) w = (Ok tt, w3)
  /\ (forall rest,
        for_each ((stype, fname) :: rest) (process_artifact E args) w
        = for_each rest (process_artifact E args) w3)
  /\ w_files w3 = w_files w1
  /\ w_manifest w3 = w_manifest w1
  /\ exists e0,
       written_entry fname (load_entries (w_manifest w3)) = Some e0
       /\ py_subscript e0 "blob_sha" = Ok JNull.
Proof.
  intros Hsync Hcwd Hin Hlocal Hpush w3.
  assert (Hproc : process_artifact E args (stype, fname) w = (Ok tt, w3)).
  { unfold process_artifact, bind. simpl fst. simpl snd. rewrite Hlocal.
    unfold sync_artifact. rewrite Hsync. unfold try_except.
    now rewrite Hpush. }
  destruct (failure_keeps_store_push_artifact args fname contents w1 e w2
              Hpush) as [Hf Hm].
  split; [exact Hproc|]. split.
  { intros rest. simpl for_each. unfold bind at 1. now rewrite Hproc. }
  split; [exact Hf|]. split; [exact Hm|].
  destruct (local_step_inv args stype fname contents w w1 Hlocal)
    as (w0 & p & _ & Hu & _).
  apply update_local_index_bare_inv in Hu as (entries' & Hman & Hup);
    [|exact Hcwd|exact (to_create_bare args (stype, fname) Hin)].
  destruct (upsert_ok_fields _ _ _ _ _ _ _ Hup) as (e0 & Hw & _ & _ & _ & _ & Hh).
  exists e0. split; [|exact Hh].
  change (w_manifest w3) with (w_manifest w2). now rewrite Hm, Hman.
Qed.

End MainFacts.

Lemma push_failure_is_contained_witness :
  sync_requested sync_args = true
  /\ posixpath.isabs (getcwd conflict_env) = true
  /\ In ("server", "ronavi_server.lua") (to_create sync_args)
  /\ local_step conflict_env sync_args "server" "ronavi_server.lua"
       earlier_world
     = (Ok "-- server", after_local_step)
  /\ push_artifact conflict_env sync_args "ronavi_server.lua" "-- server"
       after_local_step
     = (Raise (RuntimeError "GitHub API error 409: conflict"),
        after_failed_push)
  /\ process_artifact conflict_env sync_args ("server", "ronavi_server.lua")
       earlier_world
     = (Ok tt,
        snd (print (OutPushFailed
                      (RuntimeError "GitHub API error 409: conflict"))
               after_failed_push)).
Proof.
  split; [reflexivity|]. split; [reflexivity|].
  split; [left; reflexivity|].
  split; [reflexivity|]. split; [reflexivity|].
  exact (proj1 (push_failure_is_contained conflict_env sync_args "server"
                  "ronavi_server.lua" "-- server" earlier_world
                  after_local_step after_failed_push
                  (RuntimeError "GitHub API error 409: conflict")
                  eq_refl eq_refl (or_introl eq_refl) eq_refl eq_refl)).
Defined.

(** C3, as stated, fails in its last part: the entry held the hash [h1] of
    the last successful push; after a run in which the push is refused the
    run has gone through both artifacts, and the entry holds null. *)
Lemma failed_push_loses_recorded_hash :
  (written_entry "ronavi_server.lua" (load_entries (w_manifest earlier_world))
   = Some earlier_entry
   /\ py_subscript earlier_entry "blob_sha" = Ok (JStr "h1"))
  /\ fst (main conflict_env sync_args earlier_world) = Ok tt
  /\ (exists e,
        written_entry "ronavi_server.lua"
          (load_entries
             (w_manifest (snd (main conflict_env sync_args earlier_world))))
        = Some e
        /\ py_subscript e "blob_sha" = Ok JNull)
  /\ In (OutPushFailed (RuntimeError "GitHub API error 409: conflict"))
        (w_stdout (snd (main conflict_env sync_args earlier_world))).
Proof.
  split; [split; reflexivity|]. split; [reflexivity|]. split.
  - eexists. split; reflexivity.
  - vm_compute. auto.
Qed.

(** ** A run without remote sync *)

Lemma update_local_index_total (json_dumps : json -> string)
    (open_w : string -> result unit)
    (cwd outdir filename source : string) (blob_sha : json)
    (utcnow : datetime) (m : manifest_file) :
  posixpath.isabs cwd = true ->
  is_bare_name filename = true ->
  all_objects (load_entries m) ->
  open_w (posixpath.join outdir [INDEX_FILENAME]) = Ok tt ->
  exists p m',
    update_local_index json_dumps cwd open_w outdir filename source blob_sha
      utcnow m
    = (Ok p, m').
Proof.
  intros Hcwd Hbare Hall Hopen.
  destruct (upsert_total (load_entries m) filename filename source
              (isoformat utcnow +++ "Z") blob_sha Hall) as [entries' Hup].
  eexists. eexists.
  apply update_local_index_ok with (rel_path := filename);
    [|exact Hup|exact Hopen].
  now apply PathFacts.relpath_of_joined.
Qed.

Lemma read_file_written (files : list (string * string))
    (m : manifest_file) (net : list net_event) (ticks : nat)
    (out : list out_line) (path contents q : string) :
  read_file (mk_world ((path, contents) :: files) m net ticks out) q
  = if (path =? q)%string then Some contents
    else read_file (mk_world files m net ticks out) q.
Proof. unfold read_file; simpl. now destruct (path =? q)%string. Qed.

Lemma read_file_files (w w' : world) (q : string) :
  w_files w' = w_files w -> read_file w' q = read_file w q.
Proof. unfold read_file. now intros ->. Qed.

Arguments posixpath.join : simpl never.

Section LocalOnly.

Variable E : environment.

(** One artifact, when no push is asked for. *)
Lemma process_without_sync (args : arguments) (stype fname : string)
    (w : world) :
  sync_requested args = false ->
  posixpath.isabs (getcwd E) = true ->
  is_bare_name fname = true ->
  let rw := process_artifact E args (stype, fname) w in
  let outdir := arg_outdir args in
  filter is_request (w_net (snd rw)) = filter is_request (w_net w)
  /\ (arg_mode args = ModeLocal -> w_net (snd rw) = w_net w)
  /\ (all_objects (load_entries (w_manifest w)) ->
      all_objects (load_entries (w_manifest (snd rw))))
  /\ (forall other,
        other <> fname -> is_bare_name other = true ->
        read_file (snd rw) (posixpath.join outdir [other])
        = read_file w (posixpath.join outdir [other])
        /\ written_entry other (load_entries (w_manifest (snd rw)))
           = written_entry other (load_entries (w_manifest w)))
  /\ (fst rw = Ok tt ->
      recorded outdir fname (snd rw)
      /\ exists c, fst (produce E args stype w) = Ok c
                   /\ read_file (snd rw) (posixpath.join outdir [fname])
                      = Some c)
  /\ (arg_mode args = ModeLocal ->
      all_objects (load_entries (w_manifest w)) ->
      disk_ready E outdir [fname; INDEX_FILENAME] ->
      forall c, generate_local_script E stype = Ok c -> fst rw = Ok tt).
Proof.
  intros Hsync Hcwd Hbare rw outdir. subst rw outdir.
  unfold process_artifact, local_step, bind. simpl fst. simpl snd.
  pose proof (produce_effect E args stype w) as Hp.
  destruct (produce E args stype w) as [[c|e] w0] eqn:Hprod; simpl in Hp;
    destruct Hp as (Hf & Hm & _ & Hn & Hl).
  - destruct (save_file_cases E c (arg_outdir args) fname w0)
      as [(Hdir & Hopen & ->)|(e & -> & Hwhy)].
    2:{ simpl. split; [exact Hn|]. split.
        { intros Hmode. specialize (Hl Hmode). now injection Hl as _ ->. }
        split; [now rewrite Hm|]. split.
        { intros other _ _.
          split; [now apply read_file_files|now rewrite Hm]. }
        split; [discriminate|].
        intros _ _ [Hd Ho] _ _. exfalso.
        specialize (Ho fname (or_introl eq_refl)).
        destruct Hwhy as [Hwhy|[_ Hwhy]]; congruence. }
    unfold print, update_index. simpl.
    destruct (update_local_index _ _ _ _ _ _ _ _ _) as [[p|e] m'] eqn:Hu;
      simpl; unfold sync_artifact; rewrite ?Hsync; unfold ret; simpl.
    + apply update_local_index_bare_inv in Hu as (entries' & -> & Hup);
        [|exact Hcwd|exact Hbare].
      rewrite Hm in Hup. simpl load_entries.
      split; [exact Hn|]. split.
      { intros Hmode. specialize (Hl Hmode). now injection Hl as _ ->. }
      split.
      { intros Hall. now apply (upsert_all_objects _ _ _ _ _ _ _ Hall Hup). }
      split.
      { intros other Hne Hob. split.
        - rewrite read_file_written.
          destruct (String.eqb_spec
                      (posixpath.join (arg_outdir args) [fname])
                      (posixpath.join (arg_outdir args) [other])) as [Hj|_].
          + apply join_bare_inj in Hj; [congruence|assumption|assumption].
          + now apply read_file_files.
        - now apply (written_entry_upsert_other _ _ _ _ _ _ _ other Hne Hup). }
      split.
      { intros _.
        destruct (upsert_ok_fields _ _ _ _ _ _ _ Hup)
          as (e0 & Hw & _ & Hpath & _ & _ & Hh).
        assert (Hread : read_file
                          (mk_world
                             ((posixpath.join (arg_outdir args) [fname], c)
                              :: w_files w0)
                             (File (json_dumps E (JArr entries'))
                                (Some (JArr entries')))
                             (w_net w0) (S (w_ticks w0))
                             ((w_stdout w0
                               ++ [OutSaved
                                     (posixpath.join (arg_outdir args)
                                        [fname])])
                              ++ [OutUpdatedIndex p]))
                          (posixpath.join (arg_outdir args) [fname])
                        = Some c)
          by (rewrite read_file_written; now rewrite String.eqb_refl).
        split; [split|].
        - now exists c.
        - now exists e0.
        - now exists c. }
      reflexivity.
    + apply update_local_index_raise_keeps in Hu as Hkeep. subst m'.
      split; [exact Hn|]. split.
      { intros Hmode. specialize (Hl Hmode). now injection Hl as _ ->. }
      split; [now rewrite Hm|]. split.
      { intros other Hne Hob. split.
        - rewrite read_file_written.
          destruct (String.eqb_spec
                      (posixpath.join (arg_outdir args) [fname])
                      (posixpath.join (arg_outdir args) [other])) as [Hj|_].
          + apply join_bare_inj in Hj; [congruence|assumption|assumption].
          + now apply read_file_files.
        - now rewrite Hm. }
      split; [discriminate|].
      intros Hmode Hall [_ Ho] c0 Hc0. rewrite <- Hm in Hall.
      destruct (update_local_index_total (json_dumps E) (open_w E) (getcwd E)
                  (arg_outdir args) fname (mode_str (arg_mode args)) JNull
                  (clock E (w_ticks w0)) (w_manifest w0) Hcwd Hbare Hall
                  (Ho INDEX_FILENAME (or_intror (or_introl eq_refl))))
        as (p & m' & Hok).
      rewrite Hok in Hu. discriminate.
  - simpl. split; [exact Hn|]. split.
    { intros Hmode. specialize (Hl Hmode). now injection Hl as _ ->. }
    split; [now rewrite Hm|]. split.
    { intros other _ _. split; [now apply read_file_files|now rewrite Hm]. }
    split; [discriminate|].
    intros Hmode _ _ c Hc. specialize (Hl Hmode). rewrite Hc in Hl.
    discriminate.
Qed.

Lemma recorded_preserved (outdir fname : string) (w w' : world) :
  read_file w' (posixpath.join outdir [fname])
  = read_file w (posixpath.join outdir [fname]) ->
  written_entry fname (load_entries (w_manifest w'))
  = written_entry fname (load_entries (w_manifest w)) ->
  recorded outdir fname w -> recorded outdir fname w'.
Proof. unfold recorded. now intros -> ->. Qed.

Lemma sync_index_off (args : arguments) (w : world) :
  sync_requested args = false -> sync_index E args w = (Ok tt, w).
Proof.
  intros Hsync. unfold sync_index. rewrite Hsync.
  now destruct (w_manifest w).
Qed.

Lemma local_templates (args : arguments) (a : string * string) :
  In a (to_create args) -> exists c, generate_local_script E (fst a) = Ok c.
Proof.
  destruct a as [stype fname].
  intros [[-> ->]|[-> ->]]%to_create_names; eexists; reflexivity.
Qed.

(** The loop over the artifacts, when no push is asked for. *)
Lemma batch_without_sync (args : arguments) (l : list (string * string)) :
  sync_requested args = false ->
  posixpath.isabs (getcwd E) = true ->
  (forall a, In a l -> is_bare_name (snd a) = true) ->
  NoDup (map snd l) ->
  forall w,
  let rw := for_each l (process_artifact E args) w in
  let outdir := arg_outdir args in
  filter is_request (w_net (snd rw)) = filter is_request (w_net w)
  /\ (arg_mode args = ModeLocal -> w_net (snd rw) = w_net w)
  /\ (all_objects (load_entries (w_manifest w)) ->
      all_objects (load_entries (w_manifest (snd rw))))
  /\ (forall other,
        ~ In other (map snd l) -> is_bare_name other = true ->
        read_file (snd rw) (posixpath.join outdir [other])
        = read_file w (posixpath.join outdir [other])
        /\ written_entry other (load_entries (w_manifest (snd rw)))
           = written_entry other (load_entries (w_manifest w)))
  /\ (fst rw = Ok tt ->
      forall a, In a l ->
        recorded outdir (snd a) (snd rw)
        /\ exists c,
             read_file (snd rw) (posixpath.join outdir [snd a]) = Some c
             /\ (arg_mode args = ModeLocal ->
                 generate_local_script E (fst a) = Ok c))
  /\ (arg_mode args = ModeLocal ->
      all_objects (load_entries (w_manifest w)) ->
      disk_ready E outdir (INDEX_FILENAME :: map snd l) ->
      (forall a, In a l -> exists c, generate_local_script E (fst a) = Ok c) ->
      fst rw = Ok tt).
Proof.
  intros Hsync Hcwd Hbare Hnd.
  induction l as [|[stype fname] rest IH]; intros w rw outdir;
    subst rw outdir.
  - simpl. repeat split; try reflexivity; tauto.
  - simpl for_each. unfold bind.
    assert (Hb : is_bare_name fname = true)
      by exact (Hbare (stype, fname) (or_introl eq_refl)).
    pose proof (process_without_sync args stype fname w Hsync Hcwd Hb)
      as (P1 & P2 & P3 & P4 & P5 & P6).
    pose proof (produce_effect E args stype w) as (_ & _ & _ & _ & Hl).
    inversion Hnd as [|? ? Hnotin Hnd']; subst.
    destruct (process_artifact E args (stype, fname) w) as [[[]|e] w1];
      simpl in P1, P2, P3, P4, P5, P6.
    + specialize (IH (fun a Ha => Hbare a (or_intror Ha)) Hnd' w1).
      destruct IH as (Q1 & Q2 & Q3 & Q4 & Q5 & Q6).
      set (rw2 := for_each rest (process_artifact E args) w1) in *.
      split; [congruence|]. split.
      { intros Hmode. rewrite (Q2 Hmode). exact (P2 Hmode). }
      split; [auto|]. split.
      { intros other Hno Hob. simpl in Hno.
        destruct (Q4 other (fun H => Hno (or_intror H)) Hob) as [R1 R2].
        destruct (P4 other (fun H => Hno (or_introl (eq_sym H))) Hob)
          as [R3 R4].
        split; congruence. }
      split.
      { intros Hok a [<-|Ha]; [|now apply Q5].
        simpl fst. simpl snd.
        destruct (P5 eq_refl) as (Hrec & c & Hc & Hread).
        destruct (Q4 fname Hnotin Hb) as [R1 R2].
        split; [now apply (recorded_preserved _ _ w1)|].
        exists c. split; [congruence|].
        intros Hmode. rewrite (Hl Hmode) in Hc. exact Hc. }
      intros Hmode Hall [Hd Ho] Htpl. apply Q6; auto.
      * split; [exact Hd|]. intros f [<-|Hf]; apply Ho; simpl; auto.
      * intros a Ha. apply Htpl. now right.
    + simpl. split; [exact P1|]. split; [exact P2|]. split; [exact P3|].
      split.
      { intros other Hno Hob. apply P4; [|exact Hob].
        intros ->. apply Hno. now left. }
      split; [discriminate|].
      intros Hmode Hall [Hd Ho] Htpl.
      destruct (Htpl (stype, fname) (or_introl eq_refl)) as [c Hc].
      refine (P6 Hmode Hall _ c Hc).
      split; [exact Hd|]. intros f [<-|[<-|[]]]; apply Ho; simpl; auto.
Qed.

End LocalOnly.

(** * Further properties of the program *)

(** ** What an upsert leaves alone *)

Lemma count_path_py_update (q : string) (pre post : list json) (e : json)
    (n s t : string) (h : json) :
  count_path (pre ++ py_update e (update_fields n s t h) :: post) q
  = count_path (pre ++ e :: post) q.
Proof.
  now rewrite !count_path_app, !count_path_cons, path_is_py_update.
Qed.

(** The counts of all paths after an upsert: only a path that was absent
    gains an entry. *)
Lemma upsert_counts (idx : list json) (p n s t : string) (h : json)
    (idx' : list json) (q : string) :
  upsert idx p n s t h = Ok idx' ->
  count_path idx' q
  = count_path idx q
    + (if ((p =? q)%string && Nat.eqb (count_path idx p) 0)%bool
       then 1 else 0).
Proof.
  intros [(_ & Hc & ->)|(pre & old & post & -> & _ & Hc & Hold & ->)]%upsert_inv.
  - rewrite count_path_app, count_path_cons, path_is_new_entry, Hc.
    unfold count_path at 2. simpl.
    destruct (p =? q)%string; simpl; lia.
  - rewrite count_path_py_update.
    assert (Hn : Nat.eqb (count_path (pre ++ old :: post) p) 0 = false).
    { apply Nat.eqb_neq. rewrite count_path_app, count_path_cons, Hold. lia. }
    rewrite Hn, andb_false_r. lia.
Qed.

Lemma upsert_length (idx : list json) (p n s t : string) (h : json)
    (idx' : list json) :
  upsert idx p n s t h = Ok idx' ->
  List.length idx'
  = if Nat.eqb (count_path idx p) 0 then S (List.length idx)
    else List.length idx.
Proof.
  intros [(_ & Hc & ->)|(pre & old & post & -> & _ & Hc & Hold & ->)]%upsert_inv.
  - rewrite Hc, length_app. simpl. lia.
  - assert (Hn : Nat.eqb (count_path (pre ++ old :: post) p) 0 = false).
    { apply Nat.eqb_neq. rewrite count_path_app, count_path_cons, Hold. lia. }
    rewrite Hn, !length_app. reflexivity.
Qed.

Lemma upsert_nth_other (idx : list json) (p n s t : string) (h : json)
    (idx' : list json) (i : nat) (e : json) :
  upsert idx p n s t h = Ok idx' ->
  nth_error idx i = Some e -> path_is p e = false ->
  nth_error idx' i = Some e.
Proof.
  intros [(_ & Hc & ->)|(pre & old & post & -> & _ & Hc & Hold & ->)]%upsert_inv
         Hnth Hp.
  - rewrite nth_error_app1; [exact Hnth|].
    apply nth_error_Some. congruence.
  - destruct (Nat.lt_ge_cases i (List.length pre)) as [Hlt|Hge].
    + rewrite nth_error_app1 in Hnth |- * by exact Hlt. exact Hnth.
    + rewrite nth_error_app2 in Hnth |- * by exact Hge.
      destruct (i - List.length pre) as [|k]; simpl in Hnth |- *.
      * injection Hnth as <-. congruence.
      * exact Hnth.
Qed.

(** X1. A successful upsert of a path never removes or moves an entry: the
    index grows by one entry when the path was absent and keeps its length
    when it was present; every entry of another path stays at its position,
    unchanged; and the number of entries of every other path is the same. *)
Theorem upsert_frame (idx : list json) (p n s t : string) (h : json)
    (idx' : list json) :
  upsert idx p n s t h = Ok idx' ->
  List.length idx'
  = (if Nat.eqb (count_path idx p) 0 then S (List.length idx)
     else List.length idx)
  /\ (forall i e, nth_error idx i = Some e -> path_is p e = false ->
                  nth_error idx' i = Some e)
  /\ (forall q, q <> p ->
        count_path idx' q = count_path idx q
        /\ written_entry q idx' = written_entry q idx).
Proof.
  intros Hup. split; [now apply upsert_length with (n := n) (s := s) (t := t) (h := h)|].
  split.
  - intros i e. now apply upsert_nth_other with (n := n) (s := s) (t := t) (h := h).
  - intros q Hne. split.
    + rewrite (upsert_counts _ _ _ _ _ _ _ q Hup).
      destruct (String.eqb_spec p q); [congruence|simpl; lia].
    + now apply (written_entry_upsert_other _ _ _ _ _ _ _ q Hne Hup).
Qed.

Lemma upsert_frame_witness :
  upsert sample_index "b.lua" "b.lua" "ai" "t" JNull
  = Ok (sample_index ++ [new_entry "b.lua" "b.lua" "ai" "t" JNull])
  /\ List.length (sample_index ++ [new_entry "b.lua" "b.lua" "ai" "t" JNull])
     = 2.
Proof.
  split; [reflexivity|].
  exact (proj1 (upsert_frame sample_index "b.lua" "b.lua" "ai" "t" JNull
                  (sample_index ++ [new_entry "b.lua" "b.lua" "ai" "t" JNull])
                  eq_refl)).
Defined.

(** ** [relpath] on arbitrary arguments *)

Module RelpathFacts.
Import posixpath.
Import PathFacts.

Lemma commonprefix_loop_ordered (a b : list string) (i : nat)
    (whole : list string) :
  list_ltb a b = true ->
  exists l, commonprefix_loop a b i whole = Ok l.
Proof.
  revert b i. induction a as [|x a IH]; intros b i Hlt; simpl.
  - now eexists.
  - destruct b as [|y b]; [discriminate|]. simpl in Hlt.
    destruct (x =? y)%string; [now apply IH|now eexists].
Qed.

(** [commonprefix] of two lists never runs off the end of the larger one. *)
Lemma commonprefix_total (a b : list string) :
  exists l, commonprefix a b = Ok l.
Proof.
  unfold commonprefix.
  destruct (list_ltb b a) eqn:Hba; destruct (list_ltb a b) eqn:Hab.
  - exists b. apply commonprefix_loop_same.
  - now apply commonprefix_loop_ordered.
  - now apply commonprefix_loop_ordered.
  - exists a. apply commonprefix_loop_same.
Qed.

Lemma relpath_total (cwd path start : string) :
  path <> "" -> exists r, relpath cwd path start = Ok r.
Proof.
  intros Hne. unfold relpath. apply String.eqb_neq in Hne. rewrite Hne.
  destruct (commonprefix_total
              (filter nonempty (split_sep (abspath cwd start)))
              (filter nonempty (split_sep (abspath cwd path)))) as [l ->].
  simpl. destruct (_ ++ _); now eexists.
Qed.

Lemma join2_empty (a b : string) : join2 a b = "" -> a = "" /\ b = "".
Proof.
  unfold join2. destruct (startswith b "/") eqn:Hb.
  - intros ->. discriminate.
  - destruct (_ || _)%bool; intros H.
    + now apply append_eq_empty in H.
    + apply append_eq_empty in H as [_ H]. discriminate.
Qed.

Lemma clean_split (s : string) : clean (filter nonempty (split_sep s)).
Proof.
  pose proof (split_sep_comps s) as H. unfold clean.
  induction H as [|c l Hc Hl IH]; simpl; [constructor|].
  destruct (nonempty c) eqn:Hn; [|exact IH]. now constructor.
Qed.

Lemma clean_repeat_pardir (k : nat) : clean (repeat ".." k).
Proof. induction k; simpl; constructor; auto. Qed.

Lemma clean_skipn (i : nat) (l : list string) : clean l -> clean (skipn i l).
Proof.
  revert l. induction i as [|i IH]; intros l Hl; [exact Hl|].
  destruct l; [constructor|]. inversion Hl; subst. now apply IH.
Qed.

Lemma clean_not_abs (c : string) :
  nonempty c = true -> has_sep c = false -> c <> "" /\ isabs c = false.
Proof.
  intros Hn Hs. split; [|now apply isabs_no_sep].
  intros ->. discriminate.
Qed.

(** Joining clean components to a relative, non-empty path gives a relative,
    non-empty path. *)
Lemma join_clean (p : list string) (a : string) :
  a <> "" -> isabs a = false -> clean p ->
  join a p <> "" /\ isabs (join a p) = false.
Proof.
  unfold join. intros Ha Habs Hp. revert a Ha Habs.
  induction Hp as [|b p [Hn Hs] Hp IH]; intros a Ha Habs; [now split|].
  simpl. destruct (clean_not_abs b Hn Hs) as [Hb Hbabs].
  apply IH.
  - intros [-> _]%join2_empty. contradiction.
  - now rewrite join2_relative_isabs.
Qed.

(** What [relpath] returns is never empty and never absolute. *)
Lemma relpath_relative (cwd path start r : string) :
  relpath cwd path start = Ok r -> r <> "" /\ isabs r = false.
Proof.
  unfold relpath. destruct (path =? "")%string; [discriminate|].
  destruct (commonprefix _ _) as [pre|]; [|discriminate]. simpl.
  set (start_list := filter nonempty (split_sep (abspath cwd start))).
  set (path_list := filter nonempty (split_sep (abspath cwd path))).
  assert (Hclean : clean (repeat ".." (List.length start_list - List.length pre)
                          ++ skipn (List.length pre) path_list)).
  { apply Forall_app. split; [apply clean_repeat_pardir|].
    apply clean_skipn, clean_split. }
  destruct (_ ++ _) as [|a p].
  - intros [= <-]. now split.
  - intros [= <-]. inversion Hclean as [|? ? [Hn Hs] Hp]; subst.
    destruct (clean_not_abs a Hn Hs) as [Ha Habs].
    now apply join_clean.
Qed.

End RelpathFacts.

(** X2. [update_local_index] on a manifest of objects fails in two cases
    only, and leaves the manifest as it was in both: when the directory and
    the file name are both empty it raises [ValueError] (no path specified),
    before it tries to open anything; and when the manifest cannot be opened
    for writing, as in a directory that does not exist (the function makes
    none), it raises the exception of [open].  In every other case, whatever
    the working directory, it returns the path of the manifest and saves the
    updated entries. *)
Theorem update_local_index_returns (json_dumps : json -> string)
    (open_w : string -> result unit)
    (cwd outdir filename source : string) (blob_sha : json)
    (utcnow : datetime) (m : manifest_file) :
  all_objects (load_entries m) ->
  (outdir = "" -> filename = "" ->
   update_local_index json_dumps cwd open_w outdir filename source blob_sha
     utcnow m
   = (Raise (ValueError "no path specified"), m))
  /\ (outdir <> "" \/ filename <> "" ->
      forall x, open_w (posixpath.join outdir [INDEX_FILENAME]) = Raise x ->
        update_local_index json_dumps cwd open_w outdir filename source
          blob_sha utcnow m
        = (Raise x, m))
  /\ (outdir <> "" \/ filename <> "" ->
      open_w (posixpath.join outdir [INDEX_FILENAME]) = Ok tt ->
      exists entries',
        update_local_index json_dumps cwd open_w outdir filename source
          blob_sha utcnow m
        = (Ok (posixpath.join outdir [INDEX_FILENAME]),
           File (json_dumps (JArr entries')) (Some (JArr entries')))
        /\ List.length (load_entries m) <= List.length entries').
Proof.
  intros Hall.
  assert (Hsteps : outdir <> "" \/ filename <> "" ->
            exists r entries',
              posixpath.relpath cwd (posixpath.join outdir [filename]) outdir
              = Ok r
              /\ upsert (load_entries m) r filename source
                   (isoformat utcnow +++ "Z") blob_sha = Ok entries').
  { intros Hne.
    destruct (RelpathFacts.relpath_total cwd (posixpath.join outdir [filename])
                outdir) as [r Hr].
    { unfold posixpath.join; simpl.
      intros [-> ->]%RelpathFacts.join2_empty. destruct Hne; congruence. }
    destruct (upsert_total (load_entries m) r filename source
                (isoformat utcnow +++ "Z") blob_sha Hall) as [entries' Hup].
    now exists r, entries'. }
  split; [now intros -> ->|]. split.
  - intros Hne x Hopen. destruct (Hsteps Hne) as (r & entries' & Hr & Hup).
    now apply update_local_index_not_opened
          with (rel_path := r) (entries' := entries').
  - intros Hne Hopen. destruct (Hsteps Hne) as (r & entries' & Hr & Hup).
    exists entries'. split.
    + now apply update_local_index_ok with (rel_path := r).
    + rewrite (upsert_length _ _ _ _ _ _ _ Hup).
      destruct (Nat.eqb _ 0); lia.
Qed.

Lemma update_local_index_returns_witness :
  all_objects (load_entries sample_manifest)
  /\ update_local_index blank_dumps "/home/u" disk_missing "" "" "local" JNull
       sample_time sample_manifest
     = (Raise (ValueError "no path specified"), sample_manifest)
  /\ update_local_index blank_dumps "/home/u" disk_missing "/no/such/dir"
       "a.lua" "local" JNull sample_time sample_manifest
     = (Raise FileNotFoundError, sample_manifest).
Proof.
  assert (Hall : all_objects (load_entries sample_manifest))
    by (constructor; [reflexivity|constructor]).
  split; [exact Hall|]. split.
  - exact (proj1 (update_local_index_returns blank_dumps disk_missing
                    "/home/u" "" "" "local" JNull sample_time sample_manifest
                    Hall)
             eq_refl eq_refl).
  - refine (proj1 (proj2 (update_local_index_returns blank_dumps disk_missing
                            "/home/u" "/no/such/dir" "a.lua" "local" JNull
                            sample_time sample_manifest Hall))
              _ FileNotFoundError eq_refl).
    left. discriminate.
Defined.

(** X3. Whatever the directory, the file name and the working directory,
    the path a call of [update_local_index] records is a relative one: when
    the call returns, the entry it wrote holds a path that is not empty and
    does not start with the separator, and holds the file name as given. *)
Theorem update_local_index_records_relative_path
    (json_dumps : json -> string)
    (open_w : string -> result unit) (cwd outdir filename source : string)
    (blob_sha : json) (utcnow : datetime) (m m' : manifest_file)
    (p : string) :
  update_local_index json_dumps cwd open_w outdir filename source blob_sha
    utcnow m
  = (Ok p, m') ->
  exists r e,
    posixpath.relpath cwd (posixpath.join outdir [filename]) outdir = Ok r
    /\ r <> "" /\ posixpath.isabs r = false
    /\ written_entry r (load_entries m') = Some e
    /\ py_subscript e "path" = Ok (JStr r)
    /\ py_subscript e "name" = Ok (JStr filename).
Proof.
  unfold update_local_index.
  destruct (posixpath.relpath _ _ _) as [r|] eqn:Hr; [|discriminate].
  destruct (upsert _ _ _ _ _ _) as [entries'|] eqn:Hup; [|discriminate].
  destruct (open_w _) as [[]|]; [|discriminate].
  intros [= _ <-].
  destruct (RelpathFacts.relpath_relative _ _ _ _ Hr) as [Hne Habs].
  destruct (upsert_ok_fields _ _ _ _ _ _ _ Hup) as (e & Hw & Hn & Hp & _).
  exists r, e. now repeat split.
Qed.

Lemma update_local_index_records_relative_path_witness :
  update_local_index blank_dumps "/home/u" disk_ok "out" "/etc/a.lua" "local"
    JNull
    sample_time Missing
  = (Ok "out/rgeres_index.json",
     File ""
       (Some (JArr [new_entry "/etc/a.lua" "../../../etc/a.lua" "local"
                      "2024-03-09T07:05:00Z" JNull])))
  /\ exists r e,
       posixpath.relpath "/home/u" (posixpath.join "out" ["/etc/a.lua"]) "out"
       = Ok r
       /\ posixpath.isabs r = false
       /\ py_subscript e "path" = Ok (JStr r).
Proof.
  split; [reflexivity|].
  destruct (update_local_index_records_relative_path blank_dumps disk_ok
              "/home/u"
              "out" "/etc/a.lua" "local" JNull sample_time Missing _ _ eq_refl)
    as (r & e & H1 & _ & H2 & _ & H3 & _).
  now exists r, e.
Defined.

(** ** The guards of the remote helpers *)

Lemma split_once_no_sep (s : string) : has_sep s = false -> split_once s = [s].
Proof.
  induction s as [|c s IH]; [reflexivity|].
  simpl. destruct (Ascii.eqb c sep); [discriminate|].
  simpl. intros H. now rewrite IH.
Qed.

Lemma split_once_sep (s : string) :
  has_sep s = true ->
  exists owner name,
    split_once s = [owner; name] /\ s = owner +++ "/" +++ name
    /\ has_sep owner = false.
Proof.
  induction s as [|c s IH]; [discriminate|].
  simpl. destruct (Ascii.eqb c sep) eqn:Hc.
  - intros _. exists "", s. apply Ascii.eqb_eq in Hc as ->. now repeat split.
  - simpl. intros H. destruct (IH H) as (owner & name & -> & -> & Ho).
    exists (String c owner), name. repeat split. simpl. now rewrite Hc.
Qed.

Section GuardFacts.

Variable E : environment.

(** X4. Without the [requests] package, or with a repository name that has
    no slash, [gh_get_file] and [gh_put_file] raise before anything is sent:
    [RuntimeError] in the first case, the [ValueError] of the failed
    unpacking in the second; the world is left as it was. *)
Theorem remote_helpers_guard (repo path ref token content_bytes branch
    message : string) (sha : json) (w : world) :
  requests_installed E = false \/ has_sep repo = false ->
  exists e,
    gh_get_file E repo path ref token w = (Raise e, w)
    /\ gh_put_file E repo path content_bytes branch token message sha w
       = (Raise e, w)
    /\ ((requests_installed E = false /\ e = requests_missing)
        \/ (requests_installed E = true /\ e = unpack_error)).
Proof.
  intros H. unfold gh_get_file, gh_put_file.
  destruct (requests_installed E) eqn:Hreq; simpl.
  - destruct H as [H|H]; [discriminate|].
    rewrite (split_once_no_sep repo H). exists unpack_error.
    repeat split. now right.
  - exists requests_missing. repeat split. now left.
Qed.

(** X5. With [requests] installed and a repository name that has a slash,
    each helper sends exactly one request, whatever the store answers.  Its
    address is the API root, [/repos/], the repository name as given,
    [/contents/] and the path: the name is split at its first slash only,
    and put together again.  Its headers are the token as authorization and
    the media type of the API.  The GET carries the reference as [ref]; the
    body of the PUT holds the message, the bytes in base64 (decoding gives
    them back), the branch, and the hash exactly when it is a true value. *)
Theorem remote_helpers_send_one (repo path ref token content_bytes branch
    message : string) (sha : json) (w : world) :
  requests_installed E = true -> has_sep repo = true ->
  let url := "https://api.github.com/repos/" +++ repo +++ "/contents/"
             +++ path in
  let hdrs := [("Authorization", "token " +++ token);
               ("Accept", "application/vnd.github.v3+json")] in
  w_net (snd (gh_get_file E repo path ref token w))
  = w_net w ++ [EvRequest (GET url [("ref", ref)] hdrs)]
  /\ exists payload,
       w_net (snd (gh_put_file E repo path content_bytes branch token message
                     sha w))
       = w_net w ++ [EvRequest (PUT url hdrs payload)]
       /\ dict_get payload "message" = Some (JStr message)
       /\ (exists c, dict_get payload "content" = Some (JStr c)
                     /\ b64decode c = Some content_bytes)
       /\ dict_get payload "branch" = Some (JStr branch)
       /\ (truthy sha = false ->
           dict_get payload "sha" = None
           /\ dict_keys payload = ["message"; "content"; "branch"])
       /\ (truthy sha = true ->
           dict_get payload "sha" = Some sha
           /\ dict_keys payload = ["message"; "content"; "branch"; "sha"]).
Proof.
  intros Hreq (owner & name & Hsplit & -> & _)%split_once_sep url hdrs.
  assert (Hurl : contents_url owner name path = url).
  { unfold contents_url, url, GITHUB_API.
    now rewrite !PathFacts.append_assoc. }
  change hdrs with (_gh_headers token).
  unfold gh_get_file, gh_put_file, bind, send, lift, ret, raise.
  rewrite Hreq, Hsplit, Hurl. change (negb true) with false.
  cbv beta iota. split.
  - match goal with
    | |- context [server E ?a ?b] => destruct (server E a b) as [resp|e]
    end; [|reflexivity].
    now destruct (Nat.eqb _ _).
  - exists (put_payload content_bytes branch message sha).
    split; [|exact (put_payload_fields content_bytes branch message sha)].
    match goal with
    | |- context [server E ?a ?b] => destruct (server E a b) as [resp|e]
    end; [|reflexivity].
    now destruct (_ || _)%bool.
Qed.

(** X6. In ai mode, when the [openai] package is missing or the key
    [OPENAI_API_KEY] is unset or empty, [main] raises [RuntimeError] at its
    first artifact: nothing is written, nothing is sent, nothing is
    printed. *)
Theorem ai_mode_unconfigured_aborts (args : arguments) (w : world) :
  arg_mode args = ModeAi ->
  openai_installed E = false \/ given (OPENAI_API_KEY E) = false ->
  exists msg, main E args w = (Raise (RuntimeError msg), w).
Proof.
  intros Hmode Hcfg.
  assert (Hprod : forall stype,
             exists msg, produce E args stype w = (Raise (RuntimeError msg), w)).
  { intros stype. unfold produce, generate_ai_script, raise. rewrite Hmode.
    destruct (openai_installed E); simpl; [|now eexists].
    destruct Hcfg as [Hcfg|Hcfg]; [discriminate|]. rewrite Hcfg. simpl.
    now eexists. }
  unfold main, to_create.
  destruct (arg_type args); simpl for_each;
    unfold bind at 1; unfold bind at 1; unfold process_artifact, local_step;
    unfold bind at 1; unfold bind at 1; simpl fst.
  - destruct (Hprod "server") as [msg ->]. now exists msg.
  - destruct (Hprod "local") as [msg ->]. now exists msg.
  - destruct (Hprod "server") as [msg ->]. now exists msg.
Qed.

End GuardFacts.

Lemma remote_helpers_guard_witness :
  (requests_installed (sample_env (answers 200 None)) = false
   \/ has_sep "norepo" = false)
  /\ exists e,
       gh_get_file (sample_env (answers 200 None)) "norepo" "a.lua" "main"
         "tok" empty_world
       = (Raise e, empty_world)
       /\ gh_put_file (sample_env (answers 200 None)) "norepo" "a.lua"
            "print(1)" "main" "tok" "msg" JNull empty_world
          = (Raise e, empty_world).
Proof.
  split; [right; reflexivity|].
  destruct (remote_helpers_guard (sample_env (answers 200 None)) "norepo"
              "a.lua" "main" "tok" "print(1)" "main" "msg" JNull empty_world
              (or_intror eq_refl)) as (e & H1 & H2 & _).
  exists e. split; assumption.
Defined.

Lemma remote_helpers_send_one_witness :
  requests_installed (sample_env (answers 404 None)) = true
  /\ has_sep "octo/repo/extra" = true
  /\ w_net (snd (gh_get_file (sample_env (answers 404 None)) "octo/repo/extra"
                   "a.lua" "main" "tok" empty_world))
     = [EvRequest
          (GET "https://api.github.com/repos/octo/repo/extra/contents/a.lua"
             [("ref", "main")]
             [("Authorization", "token tok");
              ("Accept", "application/vnd.github.v3+json")])].
Proof.
  split; [reflexivity|]. split; [reflexivity|].
  exact (proj1 (remote_helpers_send_one (sample_env (answers 404 None))
                  "octo/repo/extra" "a.lua" "main" "tok" "" "" "" JNull
                  empty_world eq_refl eq_refl)).
Defined.

Lemma ai_mode_unconfigured_aborts_witness :
  arg_mode ai_args = ModeAi
  /\ (openai_installed (sample_env (answers 200 None)) = false
      \/ given (OPENAI_API_KEY (sample_env (answers 200 None))) = false)
  /\ exists msg,
       main (sample_env (answers 200 None)) ai_args empty_world
       = (Raise (RuntimeError msg), empty_world).
Proof.
  split; [reflexivity|]. split; [left; reflexivity|].
  exact (ai_mode_unconfigured_aborts (sample_env (answers 200 None)) ai_args
           empty_world eq_refl (or_introl eq_refl)).
Defined.

(** ** What the push of an artifact may change *)

Lemma store_bounded_of_keeps {A : Type} (m : M A)
    (U : manifest_file -> manifest_file -> Prop) :
  keeps_store m -> store_bounded m U.
Proof. intros Hm w. destruct (Hm w) as [Hf Hman]. split; auto. Qed.




Section SyncFacts.

Variable E : environment.





End SyncFacts.

(** ** A run in local mode, with or without sync *)


Section LocalRun.

Variable E : environment.








End LocalRun.


(** ** A push that succeeds *)

Lemma bind_ok {A B : Type} (m : M A) (k : A -> M B) (w w1 : world) (a : A) :
  m w = (Ok a, w1) -> bind m k w = k a w1.
Proof. unfold bind. now intros ->. Qed.

Lemma bind_lift_ok {A B : Type} (a : A) (k : A -> M B) (w : world) :
  bind (lift (Ok a)) k w = k a w.
Proof. reflexivity. Qed.

Section PushFacts.

Variable E : environment.

(** X8. When sync is asked for and the push goes through, the hash sent is
    the one fetched and the hash recorded is the one returned: if the fetch
    returns a descriptor (or nothing), the write made with the descriptor's
    [sha] (or with no hash) returns an answer, and the answer holds a hash
    at [content.sha], then the step returns, prints the push, leaves the
    files untouched and, the manifest opening for writing, leaves the entry
    of the artifact with that hash as its [blob_sha]. *)
Theorem push_records_returned_hash (args : arguments)
    (fname contents : string) (w w1 w2 : world)
    (existing sha result c h : json) :
  sync_requested args = true ->
  posixpath.isabs (getcwd E) = true ->
  is_bare_name fname = true ->
  all_objects (load_entries (w_manifest w)) ->
  gh_get_file E (str_of (arg_repo args)) fname (arg_branch args)
    (str_of (arg_github_token args)) w
  = (Ok existing, w1) ->
  (if truthy existing then py_subscript existing "sha" else Ok JNull)
  = Ok sha ->
  gh_put_file E (str_of (arg_repo args)) fname contents (arg_branch args)
    (str_of (arg_github_token args)) (arg_commit_message args) sha w1
  = (Ok result, w2) ->
  py_subscript result "content" = Ok c ->
  py_subscript c "sha" = Ok h ->
  let rw := sync_artifact E args fname contents w in
  fst rw = Ok tt
  /\ w_net (snd rw) = w_net w2
  /\ w_files (snd rw) = w_files w
  /\ In (OutPushed fname (str_of (arg_repo args)) (arg_branch args) h)
        (w_stdout (snd rw))
  /\ (open_w E (posixpath.join (arg_outdir args) [INDEX_FILENAME]) = Ok tt ->
      exists e,
        written_entry fname (load_entries (w_manifest (snd rw))) = Some e
        /\ py_subscript e "path" = Ok (JStr fname)
        /\ py_subscript e "blob_sha" = Ok h).
Proof.
  intros Hsync Hcwd Hbare Hall Hget Hsha Hput Hc Hh rw. subst rw.
  destruct (keeps_store_gh_get_file E (str_of (arg_repo args)) fname
              (arg_branch args) (str_of (arg_github_token args)) w)
    as [Hf1 Hm1].
  rewrite Hget in Hf1, Hm1. simpl in Hf1, Hm1.
  destruct (keeps_store_gh_put_file E (str_of (arg_repo args)) fname contents
              (arg_branch args) (str_of (arg_github_token args))
              (arg_commit_message args) sha w1) as [Hf2 Hm2].
  rewrite Hput in Hf2, Hm2. simpl in Hf2, Hm2.
  unfold sync_artifact. rewrite Hsync. unfold try_except, push_artifact.
  cbv zeta. rewrite (bind_ok _ _ _ _ _ Hget). rewrite Hsha, bind_lift_ok.
  rewrite (bind_ok _ _ _ _ _ Hput). rewrite Hc. unfold rbind.
  rewrite Hh, bind_lift_ok.
  unfold bind, print, update_index, ret. simpl.
  assert (Hall2 : all_objects (load_entries (w_manifest w2)))
    by now rewrite Hm2, Hm1.
  destruct (update_local_index _ _ _ _ _ _ _ _ _) as [[p|e0] m'] eqn:Hu;
    simpl.
  - apply update_local_index_bare_inv in Hu as (entries' & -> & Hup);
      [|exact Hcwd|exact Hbare].
    destruct (upsert_ok_fields _ _ _ _ _ _ _ Hup)
      as (e & Hw & _ & Hp & _ & _ & Hb).
    split; [reflexivity|]. split; [reflexivity|]. split; [congruence|].
    split; [apply in_or_app; right; now left|].
    intros _. now exists e.
  - split; [reflexivity|]. split; [reflexivity|]. split; [congruence|].
    split; [apply in_or_app; left; apply in_or_app; right; now left|].
    intros Hopen.
    destruct (update_local_index_total (json_dumps E) (open_w E) (getcwd E)
                (arg_outdir args) fname (mode_str (arg_mode args)) h
                (clock E (w_ticks w2)) (w_manifest w2) Hcwd Hbare Hall2 Hopen)
      as (p & m2 & Hok).
    rewrite Hok in Hu. discriminate.
Qed.

End PushFacts.

Lemma push_records_returned_hash_witness :
  sync_requested sync_args = true
  /\ posixpath.isabs (getcwd fresh_env) = true
  /\ is_bare_name "ronavi_server.lua" = true
  /\ all_objects (load_entries (w_manifest earlier_world))
  /\ gh_get_file fresh_env "octo/repo" "ronavi_server.lua" "main" "tok"
       earlier_world
     = (Ok JNull, after_fetch)
  /\ gh_put_file fresh_env "octo/repo" "ronavi_server.lua" "-- server" "main"
       "tok" "Add RONAVI scripts" JNull after_fetch
     = (Ok created_body, after_write)
  /\ exists e,
       written_entry "ronavi_server.lua"
         (load_entries
            (w_manifest
               (snd (sync_artifact fresh_env sync_args "ronavi_server.lua"
                       "-- server" earlier_world))))
       = Some e
       /\ py_subscript e "blob_sha" = Ok (JStr "h2").
Proof.
  assert (Hall : all_objects (load_entries (w_manifest earlier_world)))
    by (constructor; [reflexivity|constructor]).
  split; [reflexivity|]. split; [reflexivity|]. split; [reflexivity|].
  split; [exact Hall|]. split; [reflexivity|]. split; [reflexivity|].
  destruct (push_records_returned_hash fresh_env sync_args
              "ronavi_server.lua" "-- server" earlier_world after_fetch
              after_write JNull JNull created_body
              (JObj [("sha", JStr "h2")]) (JStr "h2")
              eq_refl eq_refl eq_refl Hall eq_refl eq_refl eq_refl eq_refl
              eq_refl)
    as (_ & _ & _ & _ & Hentry).
  destruct (Hentry eq_refl) as (e & Hw & _ & Hb).
  exists e. split; [exact Hw|exact Hb].
Defined.

(** ** The calls a run makes *)

Lemma sends_silent {A : Type} (m : M A) (P : net_event -> Prop) (n : nat) :
  (forall w, w_net (snd (m w)) = w_net w) -> sends m P n.
Proof.
  intros H w. exists []. rewrite H, app_nil_r. repeat split.
  - constructor.
  - simpl. lia.
Qed.

Lemma sends_weaken {A : Type} (m : M A) (P : net_event -> Prop) (n n' : nat) :
  sends m P n -> n <= n' -> sends m P n'.
Proof.
  intros H Hle w. destruct (H w) as (tail & Hnet & HP & Hlen).
  exists tail. repeat split; try assumption. lia.
Qed.

Lemma sends_bind {A B : Type} (m : M A) (k : A -> M B)
    (P : net_event -> Prop) (n1 n2 : nat) :
  sends m P n1 -> (forall a, sends (k a) P n2) -> sends (bind m k) P (n1 + n2).
Proof.
  intros Hm Hk w. unfold bind.
  destruct (Hm w) as (t1 & Hnet1 & HP1 & Hlen1).
  destruct (m w) as [[a|e] w1]; simpl in Hnet1.
  - destruct (Hk a w1) as (t2 & Hnet2 & HP2 & Hlen2).
    exists (t1 ++ t2). repeat split.
    + now rewrite Hnet2, Hnet1, app_assoc.
    + now apply Forall_app.
    + rewrite filter_app, length_app. lia.
  - exists t1. simpl. repeat split; try assumption. lia.
Qed.

Lemma sends_try_except (body : M unit) (l : exn -> out_line)
    (P : net_event -> Prop) (n : nat) :
  sends body P n -> sends (try_except body (fun e => print (l e))) P n.
Proof.
  intros Hb w. unfold try_except. specialize (Hb w).
  now destruct (body w) as [[[]|e] w1].
Qed.

Lemma contents_url_repo (repo owner name path : string) :
  split_once repo = [owner; name] ->
  contents_url owner name path = repo_url repo path.
Proof.
  intros Hsplit. destruct (has_sep repo) eqn:Hs.
  - destruct (split_once_sep repo Hs) as (o & n & Hsp & -> & _).
    rewrite Hsp in Hsplit. injection Hsplit as -> ->.
    unfold contents_url, repo_url. now rewrite !PathFacts.append_assoc.
  - rewrite (split_once_no_sep repo Hs) in Hsplit. discriminate.
Qed.

Lemma put_payload_branch (content_bytes branch message : string) (sha : json) :
  dict_get (put_payload content_bytes branch message sha) "branch"
  = Some (JStr branch).
Proof. unfold put_payload. now destruct (truthy sha). Qed.

Section NetFacts.

Variable E : environment.

Lemma sends_send (r : request) (P : net_event -> Prop) :
  P (EvRequest r) -> sends (send E r) P 1.
Proof.
  intros HP w. exists [EvRequest r]. repeat split.
  - now repeat constructor.
  - simpl. lia.
Qed.

Lemma sends_gh_get_file (repo path ref token : string)
    (P : net_event -> Prop) :
  P (EvRequest (GET (repo_url repo path) [("ref", ref)] (_gh_headers token))) ->
  sends (gh_get_file E repo path ref token) P 1.
Proof.
  intros HP. unfold gh_get_file.
  destruct (negb (requests_installed E)); [now apply sends_silent|].
  destruct (split_once repo) as [|owner [|name [|? ?]]] eqn:Hsplit;
    try now apply sends_silent.
  rewrite (contents_url_repo repo owner name path Hsplit).
  apply (sends_bind _ _ P 1 0); [now apply sends_send|].
  intros resp. destruct (Nat.eqb _ _); now apply sends_silent.
Qed.

Lemma sends_gh_put_file (repo path content_bytes branch token message : string)
    (sha : json) (P : net_event -> Prop) :
  P (EvRequest (PUT (repo_url repo path) (_gh_headers token)
                  (put_payload content_bytes branch message sha))) ->
  sends (gh_put_file E repo path content_bytes branch token message sha) P 1.
Proof.
  intros HP. unfold gh_put_file.
  destruct (negb (requests_installed E)); [now apply sends_silent|].
  destruct (split_once repo) as [|owner [|name [|? ?]]] eqn:Hsplit;
    try now apply sends_silent.
  rewrite (contents_url_repo repo owner name path Hsplit).
  apply (sends_bind _ _ P 1 0); [now apply sends_send|].
  intros resp. destruct (_ || _)%bool; now apply sends_silent.
Qed.

Lemma sends_update_index (outdir filename source : string) (blob_sha : json)
    (P : net_event -> Prop) (n : nat) :
  sends (update_index E outdir filename source blob_sha) P n.
Proof.
  apply sends_silent. intros w. unfold update_index.
  now destruct (update_local_index _ _ _ _ _ _ _ _ _).
Qed.

Lemma sends_produce (args : arguments) (stype : string) :
  sends (produce E args stype) (to_repo args) 0.
Proof.
  unfold produce, generate_ai_script, lift, raise.
  destruct (arg_mode args) eqn:Hmode; [now apply sends_silent|].
  destruct (negb (openai_installed E)); [now apply sends_silent|].
  destruct (negb (given (OPENAI_API_KEY E))); [now apply sends_silent|].
  intros w. eexists. simpl. split; [reflexivity|]. split.
  - constructor; [exact Hmode|constructor].
  - simpl. lia.
Qed.

Lemma sends_push_artifact (args : arguments) (fname contents : string) :
  sends (push_artifact E args fname contents) (to_repo args) 2.
Proof.
  unfold push_artifact. cbv zeta.
  apply (sends_bind _ _ _ 1 1).
  { apply sends_gh_get_file. simpl. repeat split. now exists fname. }
  intros existing. apply (sends_bind _ _ _ 0 1); [now apply sends_silent|].
  intros sha. apply (sends_bind _ _ _ 1 0).
  { apply sends_gh_put_file. simpl. repeat split.
    - now exists fname.
    - apply put_payload_branch. }
  intros result. apply (sends_bind _ _ _ 0 0); [now apply sends_silent|].
  intros blob_sha. apply (sends_bind _ _ _ 0 0); [now apply sends_silent|].
  intros _. apply (sends_bind _ _ _ 0 0); [apply sends_update_index|].
  intros _. now apply sends_silent.
Qed.

Lemma sends_save_file (contents outdir filename : string)
    (P : net_event -> Prop) (n : nat) :
  sends (save_file E contents outdir filename) P n.
Proof.
  apply sends_silent. intros w.
  now destruct (save_file_cases E contents outdir filename w)
    as [(_ & _ & ->)|(e & -> & _)].
Qed.

Lemma sends_process_artifact (args : arguments) (a : string * string) :
  sends (process_artifact E args a) (to_repo args) 2.
Proof.
  unfold process_artifact, local_step.
  apply (sends_bind _ _ _ 0 2).
  { apply (sends_bind _ _ _ 0 0); [apply sends_produce|].
    intros contents. apply (sends_bind _ _ _ 0 0); [apply sends_save_file|].
    intros local_path. apply (sends_bind _ _ _ 0 0); [now apply sends_silent|].
    intros _. apply (sends_bind _ _ _ 0 0); [apply sends_update_index|].
    intros idx_path. apply (sends_bind _ _ _ 0 0);
      [now apply sends_silent|intros ?; now apply sends_silent]. }
  intros contents. unfold sync_artifact.
  destruct (sync_requested args); [|now apply sends_silent].
  apply sends_try_except, sends_push_artifact.
Qed.

Lemma sends_for_each (args : arguments) (l : list (string * string)) :
  sends (for_each l (process_artifact E args)) (to_repo args)
    (2 * List.length l).
Proof.
  induction l as [|a l IH]; [now apply sends_silent|].
  simpl for_each.
  apply sends_weaken with (n := 2 + 2 * List.length l); [|simpl; lia].
  apply sends_bind; [apply sends_process_artifact|intros _; exact IH].
Qed.

Lemma sends_push_index (args : arguments) (idx_bytes : string)
    (P : net_event -> Prop) :
  P (EvRequest (GET (repo_url (str_of (arg_repo args)) INDEX_FILENAME)
                  [("ref", arg_branch args)]
                  (_gh_headers (str_of (arg_github_token args))))) ->
  (forall sha,
     P (EvRequest (PUT (repo_url (str_of (arg_repo args)) INDEX_FILENAME)
                     (_gh_headers (str_of (arg_github_token args)))
                     (put_payload idx_bytes (arg_branch args)
                        (arg_commit_message args +++ " (update rgeres index)")
                        sha)))) ->
  sends (push_index E args idx_bytes) P 2.
Proof.
  intros HG HP. unfold push_index. cbv zeta.
  apply (sends_bind _ _ _ 1 1); [now apply sends_gh_get_file|].
  intros existing. apply (sends_bind _ _ _ 0 1); [now apply sends_silent|].
  intros sha. apply (sends_bind _ _ _ 1 0); [now apply sends_gh_put_file|].
  intros result. apply (sends_bind _ _ _ 0 0);
    [now apply sends_silent|intros ?; now apply sends_silent].
Qed.

Lemma sends_sync_index_repo (args : arguments) :
  sends (sync_index E args) (to_repo args) 2.
Proof.
  intros w. unfold sync_index.
  destruct (w_manifest w) as [|raw loaded]; [now apply sends_silent|].
  destruct (sync_requested args); [|now apply sends_silent].
  apply sends_try_except, sends_push_index.
  - simpl. repeat split. now exists INDEX_FILENAME.
  - intros sha. simpl. repeat split; [now exists INDEX_FILENAME|].
    apply put_payload_branch.
Qed.

(** X9. Whatever the store answers and whatever fails, a run makes at most
    two requests for each artifact and two for the manifest; each of them
    goes to the contents of the repository given on the command line, with
    the token given as its authorization and the branch given as its [ref] or
    [branch]; the only other call that leaves the process is the chat
    completion of ai mode. *)
Theorem main_requests_bounded (args : arguments) (w : world) :
  exists tail,
    w_net (snd (main E args w)) = w_net w ++ tail
    /\ Forall (to_repo args) tail
    /\ List.length (filter is_request tail)
       <= 2 * List.length (to_create args) + 2
    /\ List.length (filter is_request tail) <= 6.
Proof.
  assert (H : sends (main E args) (to_repo args)
                (2 * List.length (to_create args) + (2 + 0))).
  { unfold main. apply sends_bind; [apply sends_for_each|].
    intros _. apply sends_bind; [apply sends_sync_index_repo|].
    intros _. now apply sends_silent. }
  destruct (H w) as (tail & Hnet & HP & Hlen).
  assert (List.length (to_create args) <= 2)
    by (unfold to_create; destruct (arg_type args); simpl; lia).
  exists tail. split; [exact Hnet|]. split; [exact HP|]. split; lia.
Qed.









End NetFacts.


(** ** The calls of a run without remote sync *)

Section Unsynced.

Variable E : environment.





End Unsynced.



(** ** A disk that refuses *)

Section DiskFacts.

Variable E : environment.

Lemma first_artifact (args : arguments) :
  exists stype fname rest,
    to_create args = (stype, fname) :: rest
    /\ exists c, generate_local_script E stype = Ok c.
Proof.
  unfold to_create. destruct (arg_type args); simpl;
    do 3 eexists; (split; [reflexivity|]); eexists; reflexivity.
Qed.

(** In local mode a [save_file] that raises ends the run, the world as it
    was. *)
Lemma main_save_fails (args : arguments) (w : world) (x : exn) :
  arg_mode args = ModeLocal ->
  (forall stype fname rest c,
     to_create args = (stype, fname) :: rest ->
     save_file E c (arg_outdir args) fname w = (Raise x, w)) ->
  main E args w = (Raise x, w).
Proof.
  intros Hmode Hsave.
  destruct (first_artifact args) as (stype & fname & rest & Hlist & c & Hc).
  pose proof (produce_effect E args stype w) as (_ & _ & _ & _ & Hl).
  specialize (Hl Hmode). rewrite Hc in Hl.
  unfold main. rewrite Hlist. simpl for_each.
  unfold process_artifact, local_step, bind. simpl fst. simpl snd.
  now rewrite Hl, (Hsave stype fname rest c Hlist).
Qed.

(** X14. In local mode a run needs its output directory: when
    [os.makedirs] raises, as it does for the empty name, or when the first
    artifact cannot be opened for writing, [main] raises that exception at
    its first artifact and has written nothing, recorded nothing, sent
    nothing and printed nothing. *)
Theorem run_needs_output_directory (args : arguments) (w : world) :
  arg_mode args = ModeLocal ->
  (arg_outdir args = "" -> main E args w = (Raise FileNotFoundError, w))
  /\ (forall x, os_makedirs E (arg_outdir args) = Raise x ->
                main E args w = (Raise x, w))
  /\ (forall x stype fname rest,
        to_create args = (stype, fname) :: rest ->
        os_makedirs E (arg_outdir args) = Ok tt ->
        open_w E (posixpath.join (arg_outdir args) [fname]) = Raise x ->
        main E args w = (Raise x, w)).
Proof.
  intros Hmode.
  assert (Hdir : forall x, os_makedirs E (arg_outdir args) = Raise x ->
                           main E args w = (Raise x, w)).
  { intros x Hmk. apply main_save_fails; [exact Hmode|].
    intros stype fname rest c _. unfold save_file, bind, lift.
    now rewrite Hmk. }
  split; [|split; [exact Hdir|]].
  - intros Hempty. apply Hdir. unfold os_makedirs. now rewrite Hempty.
  - intros x stype fname rest Hlist Hmk Hopen.
    apply main_save_fails; [exact Hmode|].
    intros stype' fname' rest' c Hlist'. rewrite Hlist in Hlist'.
    injection Hlist' as <- <- <-. unfold save_file, bind, lift.
    now rewrite Hmk, Hopen.
Qed.

End DiskFacts.

Lemma run_needs_output_directory_witness :
  arg_mode empty_outdir_args = ModeLocal
  /\ main (sample_env (answers 200 None)) empty_outdir_args empty_world
     = (Raise FileNotFoundError, empty_world).
Proof.
  split; [reflexivity|].
  exact (proj1 (run_needs_output_directory (sample_env (answers 200 None))
                  empty_outdir_args empty_world eq_refl)
           eq_refl).
Defined.

(** ** The index after a run without sync *)


Lemma upsert_all_present (source : string) (clk : nat -> datetime)
    (names : list string) :
  forall (k : nat) (idx idx' : list json),
    (forall f, In f names -> count_path idx f <> 0) ->
    upsert_all source clk k names idx = Ok idx' ->
    List.length idx' = List.length idx
    /\ forall q, count_path idx' q = count_path idx q.
Proof.
  induction names as [|f rest IH]; intros k idx idx' Hc; simpl.
  - now intros [= <-].
  - destruct (upsert idx f f source _ JNull) as [idx1|] eqn:Hup;
      [|discriminate].
    simpl. intros Hrest.
    pose proof (Hc f (or_introl eq_refl)) as Hf.
    pose proof (upsert_length _ _ _ _ _ _ _ Hup) as Hlen.
    apply Nat.eqb_neq in Hf. rewrite Hf in Hlen.
    assert (Hcount : forall q, count_path idx1 q = count_path idx q).
    { intros q. rewrite (upsert_counts _ _ _ _ _ _ _ q Hup), Hf.
      rewrite andb_false_r. lia. }
    destruct (IH (S k) idx1 idx') as [Hl Hq]; [|exact Hrest|].
    + intros g Hg. rewrite Hcount. apply Hc. now right.
    + split; [congruence|]. intros q. now rewrite Hq.
Qed.

Section IndexAfterRun.

Variable E : environment.

Lemma local_step_ticks (args : arguments) (stype fname contents : string)
    (w w1 : world) :
  local_step E args stype fname w = (Ok contents, w1) ->
  exists p,
    update_local_index (json_dumps E) (getcwd E) (open_w E) (arg_outdir args)
      fname
      (mode_str (arg_mode args)) JNull (clock E (w_ticks w)) (w_manifest w)
    = (Ok p, w_manifest w1)
    /\ w_ticks w1 = S (w_ticks w).
Proof.
  unfold local_step, bind.
  pose proof (produce_effect E args stype w) as (_ & Hm & Ht & _).
  destruct (produce E args stype w) as [[c|e] w0]; [|discriminate].
  destruct (save_file_cases E c (arg_outdir args) fname w0)
    as [(_ & _ & ->)|(e & -> & _)]; [|discriminate].
  unfold print, update_index, ret.
  simpl in Hm, Ht |- *. rewrite Hm, Ht.
  destruct (update_local_index _ _ _ _ _ _ _ _ _) as [[p|e] m'] eqn:Hu;
    [|discriminate].
  simpl. intros [= <- <-]. now exists p.
Qed.

Lemma process_no_sync_upsert (args : arguments) (stype fname : string)
    (w w1 : world) :
  sync_requested args = false ->
  posixpath.isabs (getcwd E) = true -> is_bare_name fname = true ->
  process_artifact E args (stype, fname) w = (Ok tt, w1) ->
  upsert (load_entries (w_manifest w)) fname fname (mode_str (arg_mode args))
    (isoformat (clock E (w_ticks w)) +++ "Z") JNull
  = Ok (load_entries (w_manifest w1))
  /\ w_ticks w1 = S (w_ticks w).
Proof.
  intros Hsync Hcwd Hbare. unfold process_artifact, bind, sync_artifact.
  rewrite Hsync. simpl fst. simpl snd.
  destruct (local_step E args stype fname w) as [[c|e] w0] eqn:Hls;
    [|discriminate].
  unfold ret. intros [= <-].
  apply local_step_ticks in Hls as (p & Hu & Ht).
  apply update_local_index_bare_inv in Hu as (entries' & Hm & Hup);
    [|exact Hcwd|exact Hbare].
  rewrite Hm. simpl load_entries. now split.
Qed.

Lemma batch_no_sync_upserts (args : arguments) (l : list (string * string)) :
  sync_requested args = false ->
  posixpath.isabs (getcwd E) = true ->
  (forall a, In a l -> is_bare_name (snd a) = true) ->
  forall w w1,
    for_each l (process_artifact E args) w = (Ok tt, w1) ->
    upsert_all (mode_str (arg_mode args)) (clock E) (w_ticks w) (map snd l)
      (load_entries (w_manifest w))
    = Ok (load_entries (w_manifest w1)).
Proof.
  intros Hsync Hcwd Hbare.
  induction l as [|[stype fname] rest IH]; intros w w1;
    cbn [for_each map snd upsert_all].
  - now intros [= <-].
  - unfold bind.
    destruct (process_artifact E args (stype, fname) w) as [[[]|e] w0] eqn:Hp;
      [|discriminate].
    intros Hrest.
    apply process_no_sync_upsert in Hp as [Hup Ht];
      [|exact Hsync|exact Hcwd|exact (Hbare _ (or_introl eq_refl))].
    rewrite Hup. cbn [rbind]. rewrite <- Ht.
    apply IH; [|exact Hrest]. intros a Ha. apply Hbare. now right.
Qed.

Lemma main_no_sync_manifest (args : arguments) (w : world) :
  sync_requested args = false ->
  fst (main E args w) = Ok tt ->
  exists w1,
    for_each (to_create args) (process_artifact E args) w = (Ok tt, w1)
    /\ w_manifest (snd (main E args w)) = w_manifest w1.
Proof.
  intros Hsync. unfold main, bind.
  destruct (for_each (to_create args) (process_artifact E args) w)
    as [[[]|e] w1]; [|discriminate].
  rewrite (sync_index_off E args w1 Hsync). simpl. intros _.
  now exists w1.
Qed.

Lemma run_upserts (args : arguments) (w : world) :
  sync_requested args = false ->
  posixpath.isabs (getcwd E) = true ->
  forall w1,
    for_each (to_create args) (process_artifact E args) w = (Ok tt, w1) ->
    upsert_all (mode_str (arg_mode args)) (clock E) (w_ticks w)
      (map snd (to_create args)) (load_entries (w_manifest w))
    = Ok (load_entries (w_manifest w1)).
Proof.
  intros Hsync Hcwd w1.
  exact (batch_no_sync_upserts args (to_create args) Hsync Hcwd
           (to_create_bare args) w w1).
Qed.


Lemma main_local_no_sync (args : arguments) (w : world) :
  sync_requested args = false ->
  posixpath.isabs (getcwd E) = true ->
  arg_mode args = ModeLocal ->
  all_objects (load_entries (w_manifest w)) ->
  disk_ready E (arg_outdir args)
    (INDEX_FILENAME :: map snd (to_create args)) ->
  fst (main E args w) = Ok tt.
Proof.
  intros Hsync Hcwd Hmode Hall Hdisk.
  pose proof (batch_without_sync E args (to_create args) Hsync Hcwd
                (to_create_bare args) (to_create_nodup args) w)
    as (_ & _ & _ & _ & _ & B6).
  specialize (B6 Hmode Hall Hdisk (local_templates E args)).
  unfold main, bind.
  destruct (for_each (to_create args) (process_artifact E args) w)
    as [[[]|e] w1]; [|discriminate].
  now rewrite (sync_index_off E args w1 Hsync).
Qed.


(** X13. A later run: in local mode without sync, on a disk where the output
    directory can be made and the artifacts and the manifest opened for
    writing, and on a manifest of objects that has an entry for each
    artifact, [main] returns and the manifest has as many entries as before,
    and as many of every path: running again adds nothing. *)
Theorem rerun_adds_nothing (args : arguments) (w : world) :
  sync_requested args = false ->
  posixpath.isabs (getcwd E) = true ->
  arg_mode args = ModeLocal ->
  disk_ready E (arg_outdir args)
    (INDEX_FILENAME :: map snd (to_create args)) ->
  all_objects (load_entries (w_manifest w)) ->
  (forall a, In a (to_create args) ->
             count_path (load_entries (w_manifest w)) (snd a) <> 0) ->
  fst (main E args w) = Ok tt
  /\ List.length (load_entries (w_manifest (snd (main E args w))))
     = List.length (load_entries (w_manifest w))
  /\ forall q,
       count_path (load_entries (w_manifest (snd (main E args w)))) q
       = count_path (load_entries (w_manifest w)) q.
Proof.
  intros Hsync Hcwd Hmode Hdisk Hall Hpresent.
  pose proof (main_local_no_sync args w Hsync Hcwd Hmode Hall Hdisk) as Hok.
  split; [exact Hok|].
  destruct (main_no_sync_manifest args w Hsync Hok) as (w1 & Hbatch & ->).
  pose proof (run_upserts args w Hsync Hcwd w1 Hbatch) as Hups.
  apply upsert_all_present in Hups; [exact Hups|].
  intros f (a & <- & Ha)%in_map_iff. now apply Hpresent.
Qed.

End IndexAfterRun.



Lemma rerun_adds_nothing_witness :
  fst (main offline_env local_args after_first_run) = Ok tt
  /\ List.length
       (load_entries
          (w_manifest (snd (main offline_env local_args after_first_run))))
     = 2.
Proof.
  assert (Hall : all_objects (load_entries (w_manifest after_first_run)))
    by (constructor; [reflexivity|constructor; [reflexivity|constructor]]).
  assert (Hpresent : forall a, In a (to_create local_args) ->
            count_path (load_entries (w_manifest after_first_run)) (snd a)
            <> 0).
  { intros a [<-|[<-|[]]]; vm_compute; discriminate. }
  assert (Hdisk : disk_ready offline_env (arg_outdir local_args)
                    (INDEX_FILENAME :: map snd (to_create local_args)))
    by (split; [reflexivity|intros f _; reflexivity]).
  destruct (rerun_adds_nothing offline_env local_args after_first_run
              eq_refl eq_refl eq_refl Hdisk Hall Hpresent)
    as (Hok & Hlen & _).
  split; [exact Hok|exact Hlen].
Defined.
